(** * my_utilities: convenience helpers and the R session wrapper

    A shallow embedding of [my_utilities/convenience/_convenience.py] and
    [my_utilities/wrappers/_rspace.py], with the properties their
    specification states.

    Python values are modelled by inductive types, exceptions by the
    [result] type, objects that live on the Python heap (data frames, the
    logger registry, the R global environment) by explicit stores.  Calls
    into pandas, numpy, logging and rpy2 are not code of this repository:
    where a property depends on them they are parameters of a section or
    fields of an interface. *)

From Stdlib Require Import ZArith Floats.
From stdpp Require Import base option list strings pretty gmap.

Local Open Scope string_scope.
Local Open Scope Z_scope.
Local Open Scope list_scope.

(** ** Python: exceptions and values *)

Inductive exn :=
  | ValueError (msg : string)
  | AssertionError (msg : string)
  | KeyError (msg : string)
  | TypeError (msg : string)
  | AttributeError (msg : string)
  | LibraryError (msg : string).

Inductive result (A : Type) :=
  | Ok (a : A)
  | Raise (e : exn).
Arguments Ok {A} a.
Arguments Raise {A} e.

Definition raises {A} (r : result A) : Prop :=
  match r with Ok _ => False | Raise _ => True end.

Definition returns {A} (r : result A) (a : A) : Prop := r = Ok a.

(** ** Computations on a Python store that may raise

    [M S A]: from a store of type [S], an [A] or an exception, and the
    store afterwards. *)

Definition M (S A : Type) : Type := S -> result A * S.

Definition ret {S A} (a : A) : M S A := fun h => (Ok a, h).

Definition bind {S A B} (m : M S A) (k : A -> M S B) : M S B :=
  fun h =>
    match m h with
    | (Ok a, h') => k a h'
    | (Raise e, h') => (Raise e, h')
    end.

Definition throw {S A} (e : exn) : M S A := fun h => (Raise e, h).

Definition lift {S A} (r : result A) : M S A := fun h => (r, h).

Notation "'let*' x ':=' m 'in' k" := (bind m (fun x => k))
  (at level 10, x name, m at level 200, k at level 200).

(** ** [pvalue_to_asterisks]

    A p-value is a Python [float]: an IEEE 754 binary64 number, which is
    what Rocq's primitive floats are.  The decimal literals below denote
    the same doubles as the literals of the source, and [<=?] is the
    comparison of the source ([nan <= t] is false, as in Python). *)

Module Pvalue.

Local Open Scope float_scope.
#[local] Set Warnings "-inexact-float".

Definition pvalue_to_asterisks (p_value : float) : string :=
  if p_value <=? 0.0001 then "****"%string
  else if p_value <=? 0.001 then "***"%string
  else if p_value <=? 0.01 then "**"%string
  else if p_value <=? 0.05 then "*"%string
  else "ns"%string.

(** The lookup table the specification describes: thresholds with their
    labels, in the order in which they are tried, and the default. *)
Definition thresholds : list (float * string) :=
  [ (0.0001, "****"%string); (0.001, "***"%string);
    (0.01, "**"%string); (0.05, "*"%string) ].

Fixpoint first_match (table : list (float * string)) (default : string)
    (p : float) : string :=
  match table with
  | [] => default
  | (t, s) :: rest => if p <=? t then s else first_match rest default p
  end.

Fixpoint ascending (ts : list float) : bool :=
  match ts with
  | a :: (b :: _) as rest => (a <? b) && ascending rest
  | _ => true
  end.

(** The six sample p-values of the specification. *)
Definition samples : list float := [0; 0.00005; 0.0009; 0.005; 0.03; 0.5].

End Pvalue.

(** ** [interval2str]

    [interval] is a [pd.Interval]: two endpoints and the [closed] tag.  The
    endpoints are only passed to [str.format], which is Python's and may
    raise (a format specification that does not fit the endpoint type), so
    it is a parameter here. *)

Module Interval.
Section Interval2str.

Variable endpoint : Type.
Variable str_format : string -> endpoint -> endpoint -> result string.

Record Interval := {
  left : endpoint;
  right : endpoint;
  closed : string;
}.

Definition default_fmt : string := "{:0.1f}, {:0.1f}".

Definition interval2str (interval : Interval) (fmt : string) : result string :=
  match str_format fmt (left interval) (right interval) with
  | Raise e => Raise e
  | Ok range_str =>
      if String.eqb (closed interval) "both" then
        Ok ("[" +:+ range_str +:+ "]")
      else if String.eqb (closed interval) "left" then
        Ok ("[" +:+ range_str +:+ ")")
      else if String.eqb (closed interval) "right" then
        Ok ("(" +:+ range_str +:+ "]")
      else if String.eqb (closed interval) "neither" then
        Ok ("(" +:+ range_str +:+ ")")
      else
        Raise (ValueError "Unknown bound")
  end.

(** The bracket pair the specification assigns to each tag. *)
Definition brackets (tag : string) : option (string * string) :=
  if decide (tag = "both") then Some ("[", "]")
  else if decide (tag = "left") then Some ("[", ")")
  else if decide (tag = "right") then Some ("(", "]")
  else if decide (tag = "neither") then Some ("(", ")")
  else None.

Definition known_tag (tag : string) : Prop :=
  tag = "both" \/ tag = "left" \/ tag = "right" \/ tag = "neither".

End Interval2str.

Arguments left {endpoint} _.
Arguments right {endpoint} _.
Arguments closed {endpoint} _.
Arguments interval2str {endpoint} str_format interval fmt.

(** A formatter for integer endpoints, used to run [interval2str]: every
    endpoint is printed with one decimal, whatever the format string. *)
Definition format_Z (fmt : string) (l r : Z) : result string :=
  Ok (pretty l +:+ ".0, " +:+ pretty r +:+ ".0").

End Interval.

(** ** [is_true]

    The condition is any Python object; what matters to [is_true] is
    whether it is callable and, for the object that ends up asserted, its
    truth value.  A callable condition is a function of the data. *)

Module IsTrue.

Inductive pyobj :=
  | PyNone
  | PyBool (b : bool)
  | PyInt (z : Z)
  | PyStr (s : string).

(** Python's truth value testing. *)
Definition truthy (v : pyobj) : bool :=
  match v with
  | PyNone => false
  | PyBool b => b
  | PyInt z => negb (z =? 0)
  | PyStr s => negb (String.eqb s "")
  end.

Inductive condition (Data : Type) :=
  | Plain (v : pyobj)
  | Callable (f : Data -> pyobj).
Arguments Plain {Data} v.
Arguments Callable {Data} f.

Definition callable {Data} (c : condition Data) : bool :=
  match c with Plain _ => false | Callable _ => true end.

(** [assert v, message] *)
Definition py_assert (v : pyobj) (message : string) : result unit :=
  if truthy v then Ok tt else Raise (AssertionError message).

Definition default_message : string := "The `condition` argument is False!".

Definition is_true {Data} (data : Data) (cond : condition Data)
    (message : string) : result Data :=
  match cond with
  | Callable f =>
      match py_assert (f data) message with
      | Raise e => Raise e
      | Ok _ => Ok data
      end
  | Plain v =>
      match py_assert v message with
      | Raise e => Raise e
      | Ok _ => Ok data
      end
  end.

(** The object whose truth value decides: the condition itself, or what
    the callable returns on the data. *)
Definition evaluated {Data} (data : Data) (cond : condition Data) : pyobj :=
  match cond with
  | Plain v => v
  | Callable f => f data
  end.

End IsTrue.

(** ** Data frames on the Python heap

    A [DataFrame] has its column names in order and its rows in order; a
    row carries its index label and its cells by column name.  Frames are
    Python objects: they live in a heap and code holds references to them,
    so that a method that writes in place is seen through every alias.

    The pandas methods [select] calls are modelled here with pandas'
    documented behaviour.  The expression language of [DataFrame.query] is
    a parameter: [pd_eval df expr] is the boolean row mask pandas computes
    for [expr] on [df], or the exception it raises. *)

Module Frame.

Inductive value :=
  | VNone
  | VBool (b : bool)
  | VInt (z : Z)
  | VStr (s : string)
  | VFloat (f : SpecFloat.spec_float)
  | VDate (day : Z).

#[global] Instance spec_float_eq_dec : EqDecision SpecFloat.spec_float.
Proof. solve_decision. Defined.

#[global] Instance value_eq_dec : EqDecision value.
Proof. solve_decision. Defined.

Record row := Row {
  label : value;
  cells : gmap string value;
}.

Record DataFrame := Frame_ {
  columns : list string;
  rows : list row;
}.

Definition loc := nat.
Definition heap := list DataFrame.

Definition alloc (df : DataFrame) : M heap loc :=
  fun h => (Ok (length h), h ++ [df]).

Definition deref (l : loc) : M heap DataFrame :=
  fun h =>
    match h !! l with
    | Some df => (Ok df, h)
    | None => (Raise (LibraryError "dangling reference"), h)
    end.

Definition store (l : loc) (df : DataFrame) : M heap unit :=
  fun h => (Ok tt, <[l := df]> h).

(** What [df[key] = v] does to the frame for a scalar [v]: the column is
    overwritten when it exists and appended otherwise. *)
Definition set_cell (key : string) (v : value) (r : row) : row :=
  Row (label r) (<[key := v]> (cells r)).

Definition set_column (key : string) (v : value) (df : DataFrame) : DataFrame :=
  Frame_ (if decide (key ∈ columns df) then columns df
          else columns df ++ [key])
         (map (set_cell key v) (rows df)).

(** [pd.concat(objs, axis=0, sort=False)]: the columns in order of first
    appearance; a cell of a column a frame lacks is missing. *)
Definition union_columns (acc new : list string) : list string :=
  acc ++ List.filter (fun c => bool_decide (c ∉ acc)) new.

Definition concat_frames (dfs : list DataFrame) : DataFrame :=
  Frame_ (foldl union_columns [] (map columns dfs))
         (concat (map rows dfs)).

Fixpoint deref_all (ls : list loc) : M heap (list DataFrame) :=
  match ls with
  | [] => ret []
  | l :: ls' =>
      let* df := deref l in
      let* dfs := deref_all ls' in
      ret (df :: dfs)
  end.

Inductive queries :=
  | QStr (s : string)
  | QList (l : list string)
  | QDict (d : list (value * string)).

Section Select.

Variable pd_eval : DataFrame -> string -> result (row -> bool).

(** [self.query(expr)]: a new frame with the rows the mask keeps. *)
Definition DataFrame_query (self : loc) (expr : string) : M heap loc :=
  let* df := deref self in
  let* mask := lift (pd_eval df expr) in
  alloc (Frame_ (columns df) (List.filter mask (rows df))).

(** [self.copy(deep=True)] *)
Definition DataFrame_copy (self : loc) : M heap loc :=
  let* df := deref self in
  alloc df.

(** [self[key] = v], in place. *)
Definition DataFrame_setitem (self : loc) (key : string) (v : value) : M heap unit :=
  let* df := deref self in
  store self (set_column key v df).

(** [self.assign] with the one keyword [key] bound to [v]: pandas copies
    [self] and sets the column on the copy. *)
Definition DataFrame_assign (self : loc) (key : string) (v : value) : M heap loc :=
  let* data := DataFrame_copy self in
  let* _ := DataFrame_setitem data key v in
  ret data.

(** [pd.concat(objs, axis=0, ignore_index=False, sort=False, copy=True)] *)
Definition pd_concat (objs : list loc) : M heap loc :=
  match objs with
  | [] => throw (ValueError "No objects to concatenate")
  | _ =>
      let* dfs := deref_all objs in
      alloc (concat_frames dfs)
  end.

(** The two [isinstance] tests at the head of [select]. *)
Definition str_to_dict (qs : queries) : queries :=
  match qs with
  | QStr s => QDict [(VStr "", s)]
  | _ => qs
  end.

Definition enumerate {A} (l : list A) : list (value * A) :=
  imap (fun idx que => (VInt (Z.of_nat idx), que)) l.

Definition list_to_dict (qs : queries) : queries :=
  match qs with
  | QList l => QDict (enumerate l)
  | _ => qs
  end.

Definition items (qs : queries) : result (list (value * string)) :=
  match qs with
  | QDict d => Ok d
  | _ => Raise (AttributeError "object has no attribute 'items'")
  end.

(** The body of the [for] loop, with [subsets] as the accumulator. *)
Fixpoint select_loop (dataframe : loc) (indicator : string)
    (its : list (value * string)) (subsets : list loc) : M heap (list loc) :=
  match its with
  | [] => ret subsets
  | (que_id, que_str) :: rest =>
      let* queried := DataFrame_query dataframe que_str in
      let* copied := DataFrame_copy queried in
      let* assigned := DataFrame_assign copied indicator que_id in
      select_loop dataframe indicator rest (subsets ++ [assigned])
  end.

Definition select (dataframe : loc) (qs : queries) (indicator : string) : M heap loc :=
  let qs := str_to_dict qs in
  let qs := list_to_dict qs in
  let* its := lift (items qs) in
  let* subsets := select_loop dataframe indicator its [] in
  let* merged := pd_concat subsets in
  ret merged.

End Select.

Definition default_indicator : string := "query".

(** A computation that leaves every object of the heap it starts from as
    it was (it may only allocate). *)
Definition preserves {A} (m : M heap A) : Prop :=
  forall h : heap, h `prefix_of` (m h).2.

(** The mapping [select] works on, as the specification words it. *)
Definition normalized (qs : queries) : list (value * string) :=
  match qs with
  | QStr s => [(VStr "", s)]
  | QList l => enumerate l
  | QDict d => d
  end.

(** The subset of one query: the rows its mask keeps, each tagged. *)
Definition subset_rows (indicator : string) (df : DataFrame)
    (que_id : value) (mask : row -> bool) : list row :=
  map (set_cell indicator que_id) (List.filter mask (rows df)).

(** The frame one query contributes: the kept rows, tagged. *)
Definition tagged_subset (indicator : string) (df : DataFrame)
    (it : value * string) (mask : row -> bool) : DataFrame :=
  set_column indicator it.1
    (Frame_ (columns df) (List.filter mask (rows df))).

(** The rows of the result: the subsets of the queries, one after the
    other in the order of the mapping. *)
Definition selected (indicator : string) (df : DataFrame)
    (its : list (value * string)) (masks : list (row -> bool)) : list row :=
  concat (zip_with (fun it mask => subset_rows indicator df it.1 mask)
            its masks).

(** The columns of a frame to which the indicator was assigned. *)
Definition with_indicator (indicator : string) (df : DataFrame) : list string :=
  columns (set_column indicator VNone df).

Definition has_label (l : value) (r : row) : bool :=
  bool_decide (label r = l).

Definition occurrences (l : value) (rs : list row) : nat :=
  length (List.filter (has_label l) rs).

(** A query evaluator for the example of the specification: the two
    comparisons of the integer column [col] with 1. *)
Definition int_cell (c : string) (r : row) : Z :=
  match cells r !! c with
  | Some (VInt z) => z
  | _ => 0
  end.

Definition eval_col (df : DataFrame) (expr : string) : result (row -> bool) :=
  if decide (expr = "col > 1") then Ok (fun r => 1 <? int_cell "col" r)
  else if decide (expr = "col <= 1") then Ok (fun r => int_cell "col" r <=? 1)
  else Raise (LibraryError "unsupported expression").

Definition range_frame : DataFrame :=
  Frame_ ["col"]
    (imap (fun i z => Row (VInt (Z.of_nat i)) {[ "col" := VInt z ]})
          [0; 1; 2; 3]).

End Frame.

(** ** [generate_dataframe]

    A numpy [Generator] is a mutable object: a draw reads its state and
    leaves the next state in it.  Generators live in a heap of their own.
    The bit generator and the distributions are numpy's: the state a seed
    gives ([default_rng], which refuses a negative seed) and the draw of
    one variate of each distribution are parameters; a draw of [size=n]
    is [n] draws in a row. *)

Module Generate.
Import Frame.

(** [pd.DataFrame(data)] for a dict of equally long columns: the keys are
    the columns, the index is [0 .. n-1]. *)
Definition row_at (data : list (string * list value)) (i : nat) : row :=
  Row (VInt (Z.of_nat i))
      (list_to_map (map (fun c => (c.1, nth i c.2 VNone)) data)).

Definition pd_DataFrame (data : list (string * list value)) : result DataFrame :=
  match data with
  | [] => Ok (Frame_ [] [])
  | (_, first) :: _ =>
      let n := length first in
      if forallb (fun c => Nat.eqb (length c.2) n) data then
        Ok (Frame_ (map fst data) (map (row_at data) (seq 0 n)))
      else Raise (ValueError "All arrays must be of the same length")
  end.

(** [pd.date_range(start, end)]: the days from [start] to [end], both
    included; a day is its proleptic Gregorian ordinal. *)
Definition pd_date_range (start stop : Z) : list value :=
  map (fun i => VDate (start + Z.of_nat i))
      (seq 0 (Z.to_nat (stop - start + 1))).

Definition day_2023_01_01 : Z := 738521.
Definition day_2024_01_01 : Z := 738886.

(** [f'str_{i}'] for [i] in [range(10)] *)
Definition str_i (i : nat) : value := VStr ("str_" +:+ pretty i).

Section Generator.

Variable BitGen : Type.
Variable seed_state : Z -> result BitGen.
Variable normal uniform exponential : BitGen -> value * BitGen.
Variable integers : Z -> Z -> BitGen -> value * BitGen.
Variable index_below : nat -> BitGen -> nat * BitGen.

Definition rng_heap := list BitGen.

(** [size] variates in a row. *)
Fixpoint draws {A} (sample : BitGen -> A * BitGen) (size : nat) (st : BitGen)
    : list A * BitGen :=
  match size with
  | O => ([], st)
  | S k =>
      let '(x, st1) := sample st in
      let '(xs, st2) := draws sample k st1 in
      (x :: xs, st2)
  end.

(** [np.random.default_rng(seed=seed)]: a new generator. *)
Definition default_rng (seed : Z) : M rng_heap loc :=
  let* st := lift (seed_state seed) in
  fun h => (Ok (length h), h ++ [st]).

(** A method of the generator [rng] that draws with [sample]. *)
Definition draw {A} (sample : BitGen -> A * BitGen) (rng : loc)
    : M rng_heap A :=
  fun h =>
    match h !! rng with
    | Some st => let '(x, st') := sample st in (Ok x, <[rng := st']> h)
    | None => (Raise (LibraryError "dangling reference"), h)
    end.

(** [rng.choice(a, size=size)] *)
Definition rng_choice (a : list value) (size : nat) (rng : loc)
    : M rng_heap (list value) :=
  match a, size with
  | [], S _ => throw (ValueError "a cannot be empty unless no samples are taken")
  | _, _ =>
      let* idx := draw (draws (index_below (length a)) size) rng in
      ret (map (fun i => nth i a VNone) idx)
  end.

Definition ingredients : list value :=
  [VStr "flour"; VStr "egg"; VStr "oil"; VStr "milk"; VStr "water";
   VStr "salt"; VStr "suger"].

Definition generate_dataframe (n : nat) (seed : Z) : M rng_heap DataFrame :=
  let* rng := default_rng seed in
  let* A := draw (draws normal n) rng in
  let* B := draw (draws uniform n) rng in
  let* C := draw (draws (integers 0 100) n) rng in
  let* D := draw (draws exponential n) rng in
  let* E := rng_choice ingredients n rng in
  let* F := rng_choice (map str_i (seq 0 10)) n rng in
  let* G := rng_choice (pd_date_range day_2023_01_01 day_2024_01_01) n rng in
  let* df := lift (pd_DataFrame
                     [("A", A); ("B", B); ("C", C); ("D", D);
                      ("E", E); ("F", F); ("G", G)]) in
  ret df.

(** The seven columns drawn from the state [st0], one after the other,
    and the state the generator is left in. *)
Definition pick (a : list value) (idx : list nat) : list value :=
  map (fun i => nth i a VNone) idx.

Definition sampled (n : nat) (st0 : BitGen)
    : list (string * list value) * BitGen :=
  let '(A, st) := draws normal n st0 in
  let '(B, st) := draws uniform n st in
  let '(C, st) := draws (integers 0 100) n st in
  let '(D, st) := draws exponential n st in
  let '(E, st) := draws (index_below (length ingredients)) n st in
  let '(F, st) := draws (index_below (length (map str_i (seq 0 10)))) n st in
  let '(G, st) :=
    draws (index_below
             (length (pd_date_range day_2023_01_01 day_2024_01_01))) n st in
  ([("A", A); ("B", B); ("C", C); ("D", D);
    ("E", pick ingredients E); ("F", pick (map str_i (seq 0 10)) F);
    ("G", pick (pd_date_range day_2023_01_01 day_2024_01_01) G)], st).

End Generator.

Definition default_n : nat := 100.
Definition default_seed : Z := 42.

Definition seven_fields : list string := ["A"; "B"; "C"; "D"; "E"; "F"; "G"].

(** A small generator to run [generate_dataframe] with: a linear
    congruential state, every variate read off the state. *)
Definition lcg_next (st : Z) : Z := (1103515245 * st + 12345) mod 2147483648.

Definition lcg_seed (seed : Z) : result Z :=
  if seed <? 0 then Raise (ValueError "expected non-negative integer")
  else Ok seed.

Definition lcg_value (st : Z) : value * Z := (VInt (lcg_next st), lcg_next st).

Definition lcg_integers (low high : Z) (st : Z) : value * Z :=
  (VInt (low + lcg_next st mod (high - low)), lcg_next st).

Definition lcg_index (bound : nat) (st : Z) : nat * Z :=
  (Z.to_nat (lcg_next st mod Z.of_nat bound), lcg_next st).

Definition lcg_generate (n : nat) (seed : Z) : M (list Z) DataFrame :=
  generate_dataframe Z lcg_seed lcg_value lcg_value lcg_value
    lcg_integers lcg_index n seed.

End Generate.

(** ** The [logging] registry and [get_logger]

    Loggers are process-wide objects that [logging.getLogger] finds by
    name: the registry maps a name to the state of its logger, and the
    root logger is what [None], the empty name and the name "root" all
    designate.  A logger that is asked for the first time is created with
    no handler and level [NOTSET].

    The state of a logger is here what [get_logger] reads or writes, and
    the flags next to it: level, handlers, [propagate], [disabled] and the
    attribute [last_print].  [logging] also links every logger to a
    parent, and makes a logger it creates the parent of the loggers that
    exist below it in the dotted names; [get_logger] does not look at
    these links and they are not part of this state: what is said below
    of a logger that stays as it was is said of this state only. *)

Module Logging.

Definition NOTSET : Z := 0.
Definition DEBUG : Z := 10.
Definition INFO : Z := 20.
Definition WARNING : Z := 30.

Record Formatter := {
  fmt : string;
  datefmt : string;
}.

Record Handler := {
  stream : string;
  handler_level : Z;
  formatter : option Formatter;
}.

Record Logger := {
  level : Z;
  handlers : list Handler;
  propagate : bool;
  disabled : bool;
  last_print : option Z;   (* the attribute [get_logger] sets *)
}.

Inductive logger_id :=
  | Root
  | Named (name : string).

Record registry := {
  root : Logger;
  loggerDict : gmap string Logger;
}.

Definition new_logger (lvl : Z) : Logger :=
  {| level := lvl; handlers := []; propagate := true; disabled := false;
     last_print := None |}.

(** The registry of a fresh interpreter. *)
Definition initial : registry :=
  {| root := new_logger WARNING; loggerDict := ∅ |}.

(** [logging.getLogger(name)]: which logger, and the registry with that
    logger in it. *)
Definition logger_of (name : option string) : logger_id :=
  match name with
  | None => Root
  | Some n =>
      if String.eqb n "" then Root
      else if String.eqb n "root" then Root
      else Named n
  end.

Definition getLogger (name : option string) (reg : registry)
    : logger_id * registry :=
  match logger_of name with
  | Root => (Root, reg)
  | Named n =>
      match loggerDict reg !! n with
      | Some _ => (Named n, reg)
      | None =>
          (Named n,
           {| root := root reg;
              loggerDict := <[n := new_logger NOTSET]> (loggerDict reg) |})
      end
  end.

Definition find (l : logger_id) (reg : registry) : option Logger :=
  match l with
  | Root => Some (root reg)
  | Named n => loggerDict reg !! n
  end.

(** In-place update of the logger object. *)
Definition update (l : logger_id) (f : Logger -> Logger) (reg : registry)
    : registry :=
  match l with
  | Root => {| root := f (root reg); loggerDict := loggerDict reg |}
  | Named n =>
      {| root := root reg; loggerDict := alter f n (loggerDict reg) |}
  end.

(** [logging.StreamHandler()] *)
Definition StreamHandler : Handler :=
  {| stream := "sys.stderr"; handler_level := NOTSET; formatter := None |}.

Definition setFormatter (h : Handler) (f : Formatter) : Handler :=
  {| stream := stream h; handler_level := handler_level h;
     formatter := Some f |}.

Definition addHandler (h : Handler) (lg : Logger) : Logger :=
  {| level := level lg; handlers := handlers lg ++ [h];
     propagate := propagate lg; disabled := disabled lg;
     last_print := last_print lg |}.

Definition setLevel (lvl : Z) (lg : Logger) : Logger :=
  {| level := lvl; handlers := handlers lg;
     propagate := propagate lg; disabled := disabled lg;
     last_print := last_print lg |}.

Definition set_last_print (v : Z) (lg : Logger) : Logger :=
  {| level := level lg; handlers := handlers lg;
     propagate := propagate lg; disabled := disabled lg;
     last_print := Some v |}.

Definition the_formatter : Formatter :=
  {| fmt := "%(asctime)s %(name)s [%(levelname)-s]: %(message)s";
     datefmt := "%Y-%m-%d %H:%M:%S" |}.

Definition get_logger (name : option string) (lvl : option Z)
    (reg : registry) : logger_id * registry :=
  let lvl := match lvl with None => INFO | Some l => l end in
  let '(logger, reg) := getLogger name reg in
  let reg :=
    match find logger reg with
    | Some lg =>
        if Nat.eqb (length (handlers lg)) 0 then
          let handler := StreamHandler in
          let formatter := the_formatter in
          let handler := setFormatter handler formatter in
          update logger (addHandler handler) reg
        else reg
    | None => reg
    end in
  let reg := update logger (setLevel lvl) reg in
  let reg := update logger (set_last_print 0) reg in
  (logger, reg).

(** The handler [get_logger] attaches. *)
Definition the_handler : Handler := setFormatter StreamHandler the_formatter.

(** Calls of [get_logger] on one name, one after the other. *)
Definition get_logger_calls (name : option string) (lvls : list (option Z))
    (reg : registry) : registry :=
  foldl (fun reg lvl => (get_logger name lvl reg).2) reg lvls.

Definition chosen (lvl : option Z) : Z :=
  match lvl with None => INFO | Some l => l end.

#[global] Instance logger_id_eq_dec : EqDecision logger_id.
Proof. solve_decision. Defined.

(** The logger a name designates, as [getLogger] hands it out: the one in
    the registry, or a new one. *)
Definition current (name : option string) (reg : registry) : Logger :=
  default (new_logger NOTSET) (find (logger_of name) reg).

(** What one call of [get_logger] does to the logger. *)
Definition attach (lg : Logger) : Logger :=
  match handlers lg with
  | [] => addHandler the_handler lg
  | _ => lg
  end.

Definition configured (lvl : option Z) (lg : Logger) : Logger :=
  set_last_print 0 (setLevel (chosen lvl) (attach lg)).

End Logging.

(** ** [RSpace]: variables of the R session

    The wrapper holds no state of its own: the state is R's global
    environment, a map from names to R objects.  What rpy2, R, numpy and
    pandas do to a value is not code of this repository; [Interop] is the
    interface the wrapper uses them through:
    - the converter [default_converter + pandas2ri.converter], in both
      directions, and [rlc.TaggedList];
    - R's [is.atomic], [length], [dim], [names], [rownames] and
      [colnames] as functions of an R object ([None] for R's [NULL]);
    - the evaluation of R source text in the session, [ro.r(script)], as
      the read path looks at its result: its first element, whether it is
      [NULL], its strings.  The read path splices the name into the text,
      so what is evaluated is an R expression that may raise, be about
      another object or assign in the session: the evaluators are
      computations on the session;
    - the Python operations applied to the converted value. *)

Module RSpace.

Class Interop (PyObj RObj : Type) := {
  py2rpy : PyObj -> result RObj;
  rpy2py : RObj -> result PyObj;
  as_dict : PyObj -> option (list (PyObj * PyObj));
  TaggedList : list PyObj -> list PyObj -> PyObj;
  is_atomic : RObj -> bool;
  r_length : RObj -> nat;
  r_dim : RObj -> option (list nat);
  r_names : RObj -> option (list string);
  r_rownames : RObj -> option (list string);
  r_colnames : RObj -> option (list string);
  eval_first : string -> M (gmap string RObj) bool;      (* [self(script)[0]] *)
  eval_is_null : string -> M (gmap string RObj) bool; (* [self(script) == NULL] *)
  eval_list : string -> M (gmap string RObj) (list string);
                                                   (* the strings of [self(script)] *)
  item0 : PyObj -> result PyObj;                  (* [value_py[0]] *)
  is_DataFrame : PyObj -> bool;
  is_StrVector : PyObj -> bool;
  np_array : PyObj -> result PyObj;
  ndarray_ndim : PyObj -> option nat;   (* [Some ndim] on an [np.ndarray] *)
  py_dict : PyObj -> result PyObj;
  pd_Series : PyObj -> result PyObj;
  pd_DataFrame : PyObj -> result PyObj;
  set_index : PyObj -> list string -> result PyObj;
  set_columns : PyObj -> list string -> result PyObj;
}.

(** [f'is.atomic({name}) && length({name}) == 1L'] *)
Definition scalar_test (name : string) : string :=
  "is.atomic(" +:+ name +:+ ") && length(" +:+ name +:+ ") == 1L".

(** [f'dim({name})'], [f'names({name})'], [f'rownames({name})'],
    [f'colnames({name})'] *)
Definition r_call (f name : string) : string := f +:+ "(" +:+ name +:+ ")".

Definition is_null {A} (o : option A) : bool :=
  match o with None => true | Some _ => false end.

Section Wrapper.

Context {PyObj RObj : Type} `{!Interop PyObj RObj}.

Local Abbreviation globalenv := (gmap string RObj).

(** [ro.r.assign(name, value_r)] *)
Definition r_assign (name : string) (value_r : RObj) : M globalenv unit :=
  fun env => (Ok tt, <[name := value_r]> env).

(** [ro.globalenv[name]] *)
Definition globalenv_get (name : string) : M globalenv RObj :=
  fun env =>
    match env !! name with
    | Some obj => (Ok obj, env)
    | None => (Raise (KeyError name), env)
    end.

Definition __setitem__ (name : string) (value : PyObj) : M globalenv unit :=
  let value :=
    match as_dict value with
    | Some kvs => TaggedList (map snd kvs) (map fst kvs)
    | None => value
    end in
  let* value_r := lift (py2rpy value) in
  r_assign name value_r.

(** [isinstance(value_py, np.ndarray) and value_py.ndim > 2] *)
Definition more_than_2d (value_py : PyObj) : bool :=
  match ndarray_ndim value_py with
  | Some ndim => Nat.ltb 2 ndim
  | None => false
  end.

(** [if self(script) != NULL: value_pd.<labels> = list(self(script))]: the
    script is evaluated for the test and once more for the labels. *)
Definition set_labels (script : string)
    (set : PyObj -> list string -> result PyObj) (value_pd : PyObj)
    : M globalenv PyObj :=
  let* null := eval_is_null script in
  if negb null then
    let* labels := eval_list script in
    lift (set value_pd labels)
  else ret value_pd.

Definition __getitem__ (name : string) : M globalenv PyObj :=
  let* obj := globalenv_get name in
  let* value_py := lift (rpy2py obj) in
  let* scalar := eval_first (scalar_test name) in
  if scalar then lift (item0 value_py)
  else if is_DataFrame value_py then ret value_py
  else if is_StrVector value_py then lift (np_array value_py)
  else if more_than_2d value_py then ret value_py
  else
    let* no_dim := eval_is_null (r_call "dim" name) in
    if no_dim then
      let* data := lift (py_dict value_py) in
      let* value_pd := lift (pd_Series data) in
      set_labels (r_call "names" name) set_index value_pd
    else
      let* value_pd := lift (pd_DataFrame value_py) in
      let* value_pd := set_labels (r_call "rownames" name) set_index value_pd in
      set_labels (r_call "colnames" name) set_columns value_pd.

(** [is.atomic(x) && length(x) == 1L], of an object. *)
Definition is_scalar (obj : RObj) : bool :=
  is_atomic obj && Nat.eqb (r_length obj) 1.

(** [name] is read in [env] as a symbol bound to [obj]: the expressions
    the read path splices [name] into evaluate to R's functions of [obj],
    and the session is as it was.  That is how R evaluates them when
    [name] is a syntactic R name bound to [obj] (and [is.atomic] and the
    like have their meaning of base R); for a [name] such as ["a-b"] or
    ["y <- 1"] it does not hold. *)
Definition reads (name : string) (obj : RObj) (env : globalenv) : Prop :=
  eval_first (scalar_test name) env = (Ok (is_scalar obj), env)
  /\ eval_is_null (r_call "dim" name) env = (Ok (is_null (r_dim obj)), env)
  /\ eval_is_null (r_call "names" name) env
     = (Ok (is_null (r_names obj)), env)
  /\ (forall labels, r_names obj = Some labels ->
        eval_list (r_call "names" name) env = (Ok labels, env))
  /\ eval_is_null (r_call "rownames" name) env
     = (Ok (is_null (r_rownames obj)), env)
  /\ (forall labels, r_rownames obj = Some labels ->
        eval_list (r_call "rownames" name) env = (Ok labels, env))
  /\ eval_is_null (r_call "colnames" name) env
     = (Ok (is_null (r_colnames obj)), env)
  /\ (forall labels, r_colnames obj = Some labels ->
        eval_list (r_call "colnames" name) env = (Ok labels, env)).

(** Sequencing of operations that may raise, to state results with. *)
Definition and_then {A B} (r : result A) (k : A -> result B) : result B :=
  match r with
  | Ok a => k a
  | Raise e => Raise e
  end.

(** The labelled sequence of the last case of the read path, and its
    labelled table. *)
Definition as_series (obj : RObj) (value_py : PyObj) : result PyObj :=
  and_then (py_dict value_py) (fun data =>
  and_then (pd_Series data) (fun value_pd =>
  match r_names obj with
  | Some names => set_index value_pd names
  | None => Ok value_pd
  end)).

Definition as_table (obj : RObj) (value_py : PyObj) : result PyObj :=
  and_then (pd_DataFrame value_py) (fun value_pd =>
  and_then (match r_rownames obj with
            | Some rownames => set_index value_pd rownames
            | None => Ok value_pd
            end) (fun value_pd =>
  match r_colnames obj with
  | Some colnames => set_columns value_pd colnames
  | None => Ok value_pd
  end)).

(** The ordered policy of the read path, as the specification lists it,
    on an object and what the converter makes of it. *)
Definition read_policy (obj : RObj) (value_py : PyObj) : result PyObj :=
  if is_scalar obj then item0 value_py
  else if is_DataFrame value_py then Ok value_py
  else if is_StrVector value_py then np_array value_py
  else if more_than_2d value_py then Ok value_py
  else
    match r_dim obj with
    | None => as_series obj value_py
    | Some _ => as_table obj value_py
    end.

End Wrapper.

(** *** R on names and assignments

    Enough of R's evaluator to run the read path on the texts it builds.
    An expression is a name made of letters, which stands for the object
    it is bound to (an error when it is not bound), or the assignment
    [name <- number] of a whole number to such a name, which binds the
    name in the session to the vector of that one number and has that
    vector as its value.  [f(e)] is R's [f] of the value of [e], and in
    [is.atomic(e1) && length(e2) == 1L] the second expression is
    evaluated only when the first test holds.  Any other text is outside
    this evaluator. *)

Definition letter (c : Ascii.ascii) : bool :=
  let n := Ascii.nat_of_ascii c in
  (Nat.leb 65 n && Nat.leb n 90) || (Nat.leb 97 n && Nat.leb n 122).

Fixpoint letters (s : string) : bool :=
  match s with
  | EmptyString => true
  | String c s' => letter c && letters s'
  end.

Definition plain (name : string) : bool :=
  match name with
  | EmptyString => false
  | _ => letters name
  end.

Fixpoint strip_prefix (p s : string) : option string :=
  match p, s with
  | EmptyString, _ => Some s
  | String a p', String b s' =>
      if Ascii.eqb a b then strip_prefix p' s' else None
  | String _ _, EmptyString => None
  end.

Fixpoint span_letters (s : string) : string * string :=
  match s with
  | EmptyString => (EmptyString, EmptyString)
  | String c s' =>
      if letter c then
        let '(word, rest) := span_letters s' in (String c word, rest)
      else (EmptyString, s)
  end.

(** A text that does not go on with a letter. *)
Definition stops (s : string) : bool :=
  match s with
  | EmptyString => true
  | String c _ => negb (letter c)
  end.

Definition digit (c : Ascii.ascii) : option Z :=
  let n := Ascii.nat_of_ascii c in
  if Nat.leb 48 n && Nat.leb n 57 then Some (Z.of_nat (n - 48)) else None.

(** The number the leading digits write, if there is one, and the rest. *)
Fixpoint span_digits (read : option Z) (s : string) : option Z * string :=
  match s with
  | EmptyString => (read, EmptyString)
  | String c s' =>
      match digit c with
      | Some d => span_digits (Some (10 * default 0 read + d)) s'
      | None => (read, s)
      end
  end.

Inductive r_expr :=
  | Symbol (name : string)
  | Assign (name : string) (number : Z).

(** The expression a text starts with, and the rest of the text. *)
Definition parse_expr (s : string) : option (r_expr * string) :=
  let '(name, rest) := span_letters s in
  if plain name then
    match strip_prefix " <- " rest with
    | Some rest =>
        match span_digits None rest with
        | (Some number, rest) => Some (Assign name number, rest)
        | (None, _) => None
        end
    | None => Some (Symbol name, rest)
    end
  else None.

(** The expression in [f(e)], and those in the test for a scalar. *)
Definition parse_call (f script : string) : option r_expr :=
  match strip_prefix (f +:+ "(") script with
  | Some rest =>
      match parse_expr rest with
      | Some (e, rest) => if String.eqb rest ")" then Some e else None
      | None => None
      end
  | None => None
  end.

Definition parse_scalar_test (script : string) : option (r_expr * r_expr) :=
  match strip_prefix "is.atomic(" script with
  | Some rest =>
      match parse_expr rest with
      | Some (e1, rest) =>
          match strip_prefix ") && length(" rest with
          | Some rest =>
              match parse_expr rest with
              | Some (e2, rest) =>
                  if String.eqb rest ") == 1L" then Some (e1, e2) else None
              | None => None
              end
          | None => None
          end
      | None => None
      end
  | None => None
  end.

Definition outside_R {A} : result A :=
  Raise (LibraryError "outside the modelled R").

Section SmallR.

Context {RObj : Type}.
Variables (atomic : RObj -> bool) (len : RObj -> nat).
Variables (dim : RObj -> option (list nat)).
Variables (names rownames colnames : RObj -> option (list string)).
Variable number : Z -> option RObj.   (* the vector of one number *)

Definition r_object (name : string) : M (gmap string RObj) RObj :=
  fun env =>
    match env !! name with
    | Some obj => (Ok obj, env)
    | None => (Raise (LibraryError ("object '" +:+ name +:+ "' not found")),
               env)
    end.

Definition r_value (e : r_expr) : M (gmap string RObj) RObj :=
  match e with
  | Symbol name => r_object name
  | Assign name z =>
      match number z with
      | Some obj => fun env => (Ok obj, <[name := obj]> env)
      | None => lift outside_R
      end
  end.

Definition r_eval_first (script : string) : M (gmap string RObj) bool :=
  match parse_scalar_test script with
  | Some (e1, e2) =>
      let* obj1 := r_value e1 in
      if atomic obj1 then
        let* obj2 := r_value e2 in
        ret (Nat.eqb (len obj2) 1)
      else ret false
  | None => lift outside_R
  end.

(** The attribute a text asks for. *)
Definition r_attribute (script : string)
    : option (r_expr * (RObj -> option (list string))) :=
  match parse_call "names" script with
  | Some e => Some (e, names)
  | None =>
  match parse_call "rownames" script with
  | Some e => Some (e, rownames)
  | None =>
  match parse_call "colnames" script with
  | Some e => Some (e, colnames)
  | None => None
  end end end.

Definition r_eval_is_null (script : string) : M (gmap string RObj) bool :=
  match parse_call "dim" script with
  | Some e =>
      let* obj := r_value e in
      ret (is_null (dim obj))
  | None =>
      match r_attribute script with
      | Some (e, attribute) =>
          let* obj := r_value e in
          ret (is_null (attribute obj))
      | None => lift outside_R
      end
  end.

Definition r_eval_list (script : string)
    : M (gmap string RObj) (list string) :=
  match r_attribute script with
  | Some (e, attribute) =>
      let* obj := r_value e in
      ret (default [] (attribute obj))
  | None => lift outside_R
  end.

End SmallR.

(** *** A conversion layer for atomic vectors

    Enough of rpy2 and R to run the wrapper on scalars, string vectors and
    named one-dimensional sequences: a Python scalar becomes an R vector
    of length one, a [pd.Series] an R vector with its index as names; an R
    character vector comes back as a [StrVector], any other vector as a
    one-dimensional numpy array.  Tables are not covered; matrices have a
    layer of their own below. *)

Inductive atom :=
  | Num (z : Z)
  | Str (s : string).

Inductive pyval :=
  | PyScalar (a : atom)
  | PyArray (data : list atom)
  | PyMatrix (rows : list (list atom))
  | PyStrVector (data : list string)
  | PySeries (index : list string) (data : list atom).

Record rvector := {
  values : list atom;
  names : option (list string);
}.

Definition is_str (a : atom) : bool :=
  match a with Str _ => true | Num _ => false end.

Definition text (a : atom) : string :=
  match a with Str s => s | Num z => pretty z end.

Definition unsupported {A} : result A :=
  Raise (LibraryError "outside the modelled conversion layer").

(** [value[0]] on numpy arrays, rpy2 vectors and [pd.Series] with the
    default index: of a matrix, its first row. *)
Definition first_item (v : pyval) : result pyval :=
  match v with
  | PyArray (a :: _) => Ok (PyScalar a)
  | PyMatrix (row :: _) => Ok (PyArray row)
  | PyStrVector (s :: _) => Ok (PyScalar (Str s))
  | PySeries _ (a :: _) => Ok (PyScalar a)
  | _ => Raise (LibraryError "IndexError")
  end.

Definition array_ndim (v : pyval) : option nat :=
  match v with
  | PyArray _ => Some 1%nat
  | PyMatrix _ => Some 2%nat
  | _ => None
  end.

(** R's vector of one number. *)
Definition one_number (z : Z) : option rvector :=
  Some {| values := [Num z]; names := None |}.

#[global] Instance vectors : Interop pyval rvector := {|
  py2rpy v :=
    match v with
    | PyScalar a => Ok {| values := [a]; names := None |}
    | PySeries index data => Ok {| values := data; names := Some index |}
    | PyStrVector data => Ok {| values := map Str data; names := None |}
    | PyArray _ | PyMatrix _ => unsupported
    end;
  rpy2py r :=
    match values r with
    | a :: _ =>
        if forallb is_str (values r) then Ok (PyStrVector (map text (values r)))
        else Ok (PyArray (values r))
    | [] => Ok (PyArray [])
    end;
  as_dict _ := None;
  TaggedList _ _ := PyArray [];
  is_atomic _ := true;
  r_length r := length (values r);
  r_dim _ := None;
  r_names r := names r;
  r_rownames _ := None;
  r_colnames _ := None;
  eval_first :=
    r_eval_first (fun _ => true) (fun r => length (values r)) one_number;
  eval_is_null :=
    r_eval_is_null (fun _ => None) names (fun _ => None) (fun _ => None)
      one_number;
  eval_list :=
    r_eval_list names (fun _ => None) (fun _ => None) one_number;
  item0 := first_item;
  is_DataFrame _ := false;
  is_StrVector v := match v with PyStrVector _ => true | _ => false end;
  np_array v :=
    match v with
    | PyStrVector data => Ok (PyArray (map Str data))
    | PyArray data => Ok (PyArray data)
    | _ => unsupported
    end;
  ndarray_ndim := array_ndim;
  py_dict _ := unsupported;
  pd_Series _ := unsupported;
  pd_DataFrame _ := unsupported;
  set_index _ _ := unsupported;
  set_columns _ _ := unsupported;
|}.

(** *** A conversion layer for matrices

    An R matrix of numbers, as [matrix(...)] builds it in the session:
    atomic, its length the number of its cells, with a [dim] of two and
    no [names]; the converter gives it back as a numpy array of two
    dimensions.  Writing from Python and building a table are not
    covered, and a session of matrices has no vector of one number to
    assign. *)

Record rmatrix := {
  cells : list (list Z);
  row_labels : option (list string);
  col_labels : option (list string);
}.

Definition cell_count (m : rmatrix) : nat :=
  length (concat (cells m)).

Definition dims (m : rmatrix) : list nat :=
  [length (cells m); length (default [] (head (cells m)))].

#[global] Instance matrices : Interop pyval rmatrix | 10 := {|
  py2rpy _ := unsupported;
  rpy2py m := Ok (PyMatrix (map (map Num) (cells m)));
  as_dict _ := None;
  TaggedList _ _ := PyArray [];
  is_atomic _ := true;
  r_length := cell_count;
  r_dim m := Some (dims m);
  r_names _ := None;
  r_rownames := row_labels;
  r_colnames := col_labels;
  eval_first := r_eval_first (fun _ => true) cell_count (fun _ => None);
  eval_is_null :=
    r_eval_is_null (fun m => Some (dims m)) (fun _ => None)
      row_labels col_labels (fun _ => None);
  eval_list :=
    r_eval_list (fun _ => None) row_labels col_labels (fun _ => None);
  item0 := first_item;
  is_DataFrame _ := false;
  is_StrVector _ := false;
  np_array v :=
    match v with
    | PyArray data => Ok (PyArray data)
    | PyMatrix rows => Ok (PyMatrix rows)
    | _ => unsupported
    end;
  ndarray_ndim := array_ndim;
  py_dict _ := unsupported;
  pd_Series _ := unsupported;
  pd_DataFrame _ := unsupported;
  set_index _ _ := unsupported;
  set_columns _ _ := unsupported;
|}.

End RSpace.

(** ** Significance levels

    The number of asterisks of a label, to compare labels with. *)

Module Significance.

Fixpoint stars (label : string) : nat :=
  match label with
  | EmptyString => 0
  | String c rest =>
      (if String.eqb (String c EmptyString) "*" then 1 else 0) + stars rest
  end%nat.

End Significance.

(** ** Checks in a chain

    [df.pipe(is_true, c1, m1).pipe(is_true, c2, m2) ...]: [pipe] applies
    the function to the frame, so a chain of checks hands the value that
    one check returns to the next. *)

Module Chain.
Import IsTrue.

Fixpoint is_true_chain {Data} (data : Data)
    (checks : list (condition Data * string)) : result Data :=
  match checks with
  | [] => Ok data
  | (cond, message) :: rest =>
      match is_true data cond message with
      | Ok data' => is_true_chain data' rest
      | Raise e => Raise e
      end
  end.

Definition holds {Data} (data : Data) (check : condition Data * string) : bool :=
  truthy (evaluated data check.1).

End Chain.

(** ** More about [select]: a query evaluator that can fail *)

Module FrameExamples.
Import Frame.

(** A table that already has a column named like the indicator. *)
Definition tagged_frame : DataFrame :=
  Frame_ ["col"; "query"]
    (imap (fun i z => Row (VInt (Z.of_nat i))
                        {[ "col" := VInt z; "query" := VStr "old" ]})
          [0; 1; 2; 3]).

Definition accepted_by (masks : list (row -> bool)) (r : row) : nat :=
  length (List.filter (fun mask : row -> bool => mask r) masks).

End FrameExamples.

(** ** What [RSpace.__setitem__] hands to the converter *)

Module RSpaceWrites.
Import RSpace.

Section Wrapper.

Context {PyObj RObj : Type} `{!Interop PyObj RObj}.

(** A dict goes as the tagged list of its values under its keys, any
    other value as it is. *)
Definition r_input (value : PyObj) : PyObj :=
  match as_dict value with
  | Some kvs => TaggedList (map snd kvs) (map fst kvs)
  | None => value
  end.

End Wrapper.

End RSpaceWrites.

(** ** [RSpace.as_lines]

    ['\n'.join(strings)], and Python's [str.split] on one character to
    read the lines back with. *)

Module Lines.

Definition newline_char : Ascii.ascii := Ascii.ascii_of_nat 10.
Definition newline : string := String newline_char EmptyString.

(** [sep.join(strings)] *)
Fixpoint str_join (sep : string) (strings : list string) : string :=
  match strings with
  | [] => ""
  | s :: rest =>
      match rest with
      | [] => s
      | _ => s +:+ sep +:+ str_join sep rest
      end
  end.

Definition as_lines (strings : list string) : string :=
  str_join newline strings.

(** [s.split(c)] for a separator of one character. *)
Fixpoint str_split (c : Ascii.ascii) (s : string) : list string :=
  match s with
  | EmptyString => [""]
  | String a rest =>
      if Ascii.eqb a c then "" :: str_split c rest
      else
        match str_split c rest with
        | [] => [String a ""]
        | first :: others => String a first :: others
        end
  end.

(** [c in s] *)
Fixpoint has_char (c : Ascii.ascii) (s : string) : bool :=
  match s with
  | EmptyString => false
  | String a rest => Ascii.eqb a c || has_char c rest
  end.

End Lines.

(** ** [RSpace.obj2cat]

    Here a frame is its columns with their dtypes: a column is a named
    series.  [frame[col]] is the series of that name; when several columns
    have the name it is a sub-frame, which has no [dtype], and the
    attribute access raises.  What [astype("category")] makes of the
    values of a column is pandas' and not code of this repository (a
    missing [None] becomes [NaN], values that are equal become one
    category): it is the interface [Astype]. *)

Module Categories.

Inductive dtype :=
  | Dobject
  | Dcategory
  | Dint64
  | Dfloat64
  | Dbool
  | Ddatetime64.

Record Series := {
  name : string;
  dt : dtype;
  data : list Frame.value;
}.

Record TypedFrame := {
  index : list Frame.value;
  series : list Series;
}.

Abbreviation theap := (list TypedFrame).

Definition talloc (df : TypedFrame) : M theap nat :=
  fun h => (Ok (length h), h ++ [df]).

Definition tderef (l : nat) : M theap TypedFrame :=
  fun h =>
    match h !! l with
    | Some df => (Ok df, h)
    | None => (Raise (LibraryError "dangling reference"), h)
    end.

Definition tstore (l : nat) (df : TypedFrame) : M theap unit :=
  fun h => (Ok tt, <[l := df]> h).

(** [dataframe.copy()] *)
Definition TypedFrame_copy (self : nat) : M theap nat :=
  let* df := tderef self in
  talloc df.

(** [self[col]] as a series. *)
Definition column (df : TypedFrame) (col : string) : result Series :=
  match List.filter (fun s => String.eqb (name s) col) (series df) with
  | [] => Raise (KeyError col)
  | [s] => Ok s
  | _ => Raise (AttributeError "'DataFrame' object has no attribute 'dtype'")
  end.

Definition TypedFrame_getitem (self : nat) (col : string) : M theap Series :=
  let* df := tderef self in
  lift (column df col).

(** The values of a column once it is categorical.  The cells of
    [Frame.value] are scalars that can be hashed; on them [astype] does
    not raise. *)
Class Astype := categorical_values : list Frame.value -> list Frame.value.

Section Astype.

Context `{!Astype}.

(** [series.astype("category")] *)
Definition astype_category (s : Series) : Series :=
  {| name := name s; dt := Dcategory; data := categorical_values (data s) |}.

(** [self[col] = s], in place. *)
Definition set_series (col : string) (new : Series) (df : TypedFrame)
    : TypedFrame :=
  {| index := index df;
     series := map (fun s => if String.eqb (name s) col then new else s)
                 (series df) |}.

Definition TypedFrame_setitem (self : nat) (col : string) (new : Series)
    : M theap unit :=
  let* df := tderef self in
  tstore self (set_series col new df).

Definition is_object (d : dtype) : bool :=
  match d with Dobject => true | _ => false end.

(** The body of the loop: the column is replaced when its dtype is
    [object]. *)
Definition obj2cat_body (converted : nat) (col : string) : M theap unit :=
  let* s := TypedFrame_getitem converted col in
  if is_object (dt s) then
    let* s' := TypedFrame_getitem converted col in
    TypedFrame_setitem converted col (astype_category s')
  else ret tt.

Fixpoint obj2cat_loop (converted : nat) (cols : list string) : M theap unit :=
  match cols with
  | [] => ret tt
  | col :: rest =>
      let* _ := obj2cat_body converted col in
      obj2cat_loop converted rest
  end.

Definition obj2cat (dataframe : nat) : M theap nat :=
  let* converted := TypedFrame_copy dataframe in
  let* df := tderef converted in
  let* _ := obj2cat_loop converted (map name (series df)) in
  ret converted.

(** The frame [obj2cat] is to return. *)
Definition to_category (s : Series) : Series :=
  if is_object (dt s) then astype_category s else s.

Definition to_categories (df : TypedFrame) : TypedFrame :=
  {| index := index df; series := map to_category (series df) |}.

(** One turn of the loop converts the column it visits and no other. *)
Definition convert_named (col : string) (s : Series) : Series :=
  if String.eqb (name s) col then to_category s else s.

Definition convert_cols (cols : list string) (l : list Series) : list Series :=
  foldl (fun l col => map (convert_named col) l) l cols.

End Astype.

(** On a column of strings and missing values: the strings as they are,
    [NaN] for a missing value. *)
Definition missing_as_nan (v : Frame.value) : Frame.value :=
  match v with
  | Frame.VNone => Frame.VFloat S754_nan
  | _ => v
  end.

Definition strings_and_missing : Astype := map missing_as_nan.

Definition mouse_frame : TypedFrame :=
  {| index := [Frame.VInt 0; Frame.VInt 1];
     series :=
       [ {| name := "expression"; dt := Dfloat64;
            data := [Frame.VInt 1; Frame.VInt 2] |};
         {| name := "mouse"; dt := Dobject;
            data := [Frame.VStr "MOUSE1"; Frame.VStr "MOUSE2"] |};
         {| name := "treat1"; dt := Dobject;
            data := [Frame.VStr "NO"; Frame.VStr "YES"] |} ] |}.

End Categories.

(** * Properties *)

(** ** [pvalue_to_asterisks] *)

Module PvalueSpec.
Import Pvalue.
Local Open Scope float_scope.
#[local] Set Warnings "-inexact-float".

Lemma thresholds_ascending : ascending (map fst thresholds) = true.
Proof. reflexivity. Qed.

(** C6: [pvalue_to_asterisks] is the five-way lookup over the thresholds
    0.0001, 0.001, 0.01, 0.05 (tried in this, ascending, order; the first
    threshold that the p-value does not exceed decides; "ns" when none
    does), and the six sample p-values 0, 0.00005, 0.0009, 0.005, 0.03, 0.5
    give "****", "****", "***", "**", "*", "ns". *)
Theorem pvalue_to_asterisks_lookup :
  (forall p, pvalue_to_asterisks p = first_match thresholds "ns"%string p)
  /\ map fst thresholds = [0.0001; 0.001; 0.01; 0.05]
  /\ ascending (map fst thresholds) = true
  /\ (forall p,
        ((p <=? 0.0001) = true -> pvalue_to_asterisks p = "****"%string)
        /\ ((p <=? 0.0001) = false -> (p <=? 0.001) = true ->
            pvalue_to_asterisks p = "***"%string)
        /\ ((p <=? 0.0001) = false -> (p <=? 0.001) = false ->
            (p <=? 0.01) = true -> pvalue_to_asterisks p = "**"%string)
        /\ ((p <=? 0.0001) = false -> (p <=? 0.001) = false ->
            (p <=? 0.01) = false -> (p <=? 0.05) = true ->
            pvalue_to_asterisks p = "*"%string)
        /\ ((p <=? 0.0001) = false -> (p <=? 0.001) = false ->
            (p <=? 0.01) = false -> (p <=? 0.05) = false ->
            pvalue_to_asterisks p = "ns"%string))
  /\ map pvalue_to_asterisks samples
     = ["****"; "****"; "***"; "**"; "*"; "ns"]%string.
Proof.
  split; [reflexivity|].
  split; [reflexivity|].
  split; [exact thresholds_ascending|].
  split; [|vm_compute; reflexivity].
  intros p. unfold pvalue_to_asterisks.
  repeat split; intros; repeat match goal with H : _ = _ |- _ => rewrite H end;
    reflexivity.
Qed.

End PvalueSpec.

(** ** [interval2str] *)

Module IntervalSpec.
Import Interval.

Section Brackets.

Context {endpoint : Type}.
Variable str_format : string -> endpoint -> endpoint -> result string.

Lemma brackets_known tag : is_Some (brackets tag) <-> known_tag tag.
Proof.
  unfold brackets, known_tag.
  repeat case_decide; split; intros Hk; try (by eauto); try tauto;
    try (by destruct Hk as [? ?]).
Qed.

Lemma interval2str_formatted interval fmt range_str :
  str_format fmt (left interval) (right interval) = Ok range_str ->
  interval2str str_format interval fmt =
    match brackets (closed interval) with
    | Some (l, r) => Ok (l +:+ range_str +:+ r)
    | None => Raise (ValueError "Unknown bound")
    end.
Proof.
  intros Hfmt. unfold interval2str, brackets. rewrite Hfmt.
  repeat case_decide;
    repeat match goal with
    | H : closed interval = _ |- _ => rewrite H; clear H
    | H : closed interval <> _ |- _ =>
        apply String.eqb_neq in H; rewrite H; clear H
    end; reflexivity.
Qed.

(** C7: when the closedness tag is 'both', 'left', 'right' or 'neither',
    [interval2str] returns the formatted range between '[' ']', '[' ')',
    '(' ']' and '(' ')' respectively; with any other tag it raises (the
    [ValueError] of the last branch once the range has been formatted). *)
Theorem interval2str_brackets (interval : Interval endpoint) (fmt : string) :
  (forall range_str,
      str_format fmt (left interval) (right interval) = Ok range_str ->
      (closed interval = "both" ->
         interval2str str_format interval fmt = Ok ("[" +:+ range_str +:+ "]"))
      /\ (closed interval = "left" ->
         interval2str str_format interval fmt = Ok ("[" +:+ range_str +:+ ")"))
      /\ (closed interval = "right" ->
         interval2str str_format interval fmt = Ok ("(" +:+ range_str +:+ "]"))
      /\ (closed interval = "neither" ->
         interval2str str_format interval fmt = Ok ("(" +:+ range_str +:+ ")"))
      /\ (~ known_tag (closed interval) ->
         interval2str str_format interval fmt
         = Raise (ValueError "Unknown bound")))
  /\ (~ known_tag (closed interval) ->
      raises (interval2str str_format interval fmt)).
Proof.
  split.
  - intros range_str Hfmt.
    rewrite (interval2str_formatted _ _ _ Hfmt).
    repeat split; intros Hk; try (rewrite Hk; reflexivity).
    destruct (brackets (closed interval)) as [[l r]|] eqn:Hb; [|reflexivity].
    exfalso. apply Hk, brackets_known. by rewrite Hb.
  - intros Hk. unfold interval2str.
    destruct (str_format _ _ _) as [range_str|e]; [|exact I].
    assert (Hb : brackets (closed interval) = None).
    { destruct (brackets (closed interval)) eqn:Hb; [|reflexivity].
      exfalso. apply Hk, brackets_known. by rewrite Hb. }
    revert Hb. unfold brackets.
    repeat case_decide; try discriminate; intros _.
    repeat match goal with
    | H : closed interval <> _ |- _ =>
        apply String.eqb_neq in H; rewrite H; clear H
    end. exact I.
Qed.

End Brackets.

Example interval2str_both :
  interval2str format_Z {| left := 1; right := 5; closed := "both" |}
    default_fmt = Ok "[1.0, 5.0]".
Proof. reflexivity. Qed.

Example interval2str_left :
  interval2str format_Z {| left := 1; right := 5; closed := "left" |}
    default_fmt = Ok "[1.0, 5.0)".
Proof. reflexivity. Qed.

Example interval2str_right :
  interval2str format_Z {| left := -2; right := 5; closed := "right" |}
    default_fmt = Ok "(-2.0, 5.0]".
Proof. reflexivity. Qed.

Example interval2str_neither :
  interval2str format_Z {| left := 1; right := 5; closed := "neither" |}
    default_fmt = Ok "(1.0, 5.0)".
Proof. reflexivity. Qed.

Example interval2str_unknown :
  interval2str format_Z {| left := 1; right := 5; closed := "open" |}
    default_fmt = Raise (ValueError "Unknown bound").
Proof. reflexivity. Qed.

End IntervalSpec.

(** ** [is_true] *)

Module IsTrueSpec.
Import IsTrue.

Lemma is_true_cases {Data} (x : Data) cond message :
  is_true x cond message =
    if truthy (evaluated x cond) then Ok x
    else Raise (AssertionError message).
Proof.
  destruct cond as [v|f]; simpl; unfold py_assert;
    by destruct (truthy _).
Qed.

(** C5: [is_true x True] returns [x] itself, [is_true x False] raises with
    the message given by the caller; a callable condition is applied to
    [x], and [is_true] returns [x] exactly when what it returns is truthy
    and raises otherwise.  In both forms [is_true] raises if and only if
    the evaluated condition is falsy, and never returns anything but [x]. *)
Theorem is_true_spec {Data : Type} (x : Data) (message : string) :
  is_true x (Plain (PyBool true)) message = Ok x
  /\ is_true x (Plain (PyBool false)) message
     = Raise (AssertionError message)
  /\ (forall f : Data -> pyobj,
        callable (Callable f) = true
        /\ (is_true x (Callable f) message = Ok x <-> truthy (f x) = true)
        /\ (is_true x (Callable f) message = Raise (AssertionError message)
            <-> truthy (f x) = false))
  /\ (forall cond,
        raises (is_true x cond message)
        <-> truthy (evaluated x cond) = false)
  /\ (forall cond y, is_true x cond message = Ok y -> y = x).
Proof.
  split; [reflexivity|]. split; [reflexivity|].
  split; [|split].
  - intros f. split; [reflexivity|].
    rewrite is_true_cases. simpl.
    destruct (truthy (f x)); split; split; intros; congruence.
  - intros cond. rewrite is_true_cases.
    destruct (truthy _); simpl; split; intros; (congruence || tauto).
  - intros cond y. rewrite is_true_cases.
    destruct (truthy _); congruence.
Qed.

Example is_true_chain :
  is_true [1; 2; 3] (Callable (fun df => PyBool (forallb (Z.leb 0) df)))
    default_message = Ok [1; 2; 3].
Proof. reflexivity. Qed.

Example is_true_fails :
  is_true [1; -2; 3] (Callable (fun df => PyBool (forallb (Z.leb 0) df)))
    "negative" = Raise (AssertionError "negative").
Proof. reflexivity. Qed.

End IsTrueSpec.

(** ** [select] *)

Module FrameSpec.
Import Frame.

Section Runs.

Variable pd_eval : DataFrame -> string -> result (row -> bool).

(** *** Each pandas call, run on a heap *)

Lemma deref_run (h : heap) l df :
  h !! l = Some df -> deref l h = (Ok df, h).
Proof. intros Hl. unfold deref. by rewrite Hl. Qed.

Lemma DataFrame_query_run (h : heap) self df expr mask :
  h !! self = Some df ->
  pd_eval df expr = Ok mask ->
  DataFrame_query pd_eval self expr h
  = (Ok (length h), h ++ [Frame_ (columns df) (List.filter mask (rows df))]).
Proof.
  intros Hl He. unfold DataFrame_query, bind, lift.
  rewrite (deref_run _ _ _ Hl), He. reflexivity.
Qed.

Lemma DataFrame_copy_run (h : heap) self df :
  h !! self = Some df ->
  DataFrame_copy self h = (Ok (length h), h ++ [df]).
Proof.
  intros Hl. unfold DataFrame_copy, bind.
  by rewrite (deref_run _ _ _ Hl).
Qed.

Lemma lookup_fresh (h : heap) df : (h ++ [df]) !! length h = Some df.
Proof. by rewrite lookup_app_r, Nat.sub_diag by lia. Qed.

Lemma insert_fresh (h : heap) df df' :
  <[length h := df']> (h ++ [df]) = h ++ [df'].
Proof. by rewrite insert_app_r_alt, Nat.sub_diag by lia. Qed.

Lemma DataFrame_assign_run (h : heap) self df key v :
  h !! self = Some df ->
  DataFrame_assign self key v h
  = (Ok (length h), h ++ [set_column key v df]).
Proof.
  intros Hl. unfold DataFrame_assign, bind.
  rewrite (DataFrame_copy_run _ _ _ Hl).
  unfold DataFrame_setitem, bind, store, ret.
  rewrite (deref_run _ _ _ (lookup_fresh h df)).
  by rewrite insert_fresh.
Qed.

Lemma deref_all_run (h : heap) ls dfs :
  Forall2 (fun l df => h !! l = Some df) ls dfs ->
  deref_all ls h = (Ok dfs, h).
Proof.
  induction 1 as [|l df ls dfs Hl _ IH]; [reflexivity|].
  simpl. unfold bind. by rewrite (deref_run _ _ _ Hl), IH.
Qed.

Lemma pd_concat_run (h : heap) ls dfs :
  ls <> [] ->
  Forall2 (fun l df => h !! l = Some df) ls dfs ->
  pd_concat ls h = (Ok (length h), h ++ [concat_frames dfs]).
Proof.
  intros Hne Hall. destruct ls as [|l ls]; [done|].
  unfold pd_concat, bind. by rewrite (deref_all_run _ _ _ Hall).
Qed.

(** *** The loop *)

Lemma Forall2_lookup_weaken (h ext : heap) ls dfs :
  Forall2 (fun l df => h !! l = Some df) ls dfs ->
  Forall2 (fun l df => (h ++ ext) !! l = Some df) ls dfs.
Proof.
  intros Hall. eapply Forall2_impl; [exact Hall|].
  intros l df Hl. by apply lookup_app_l_Some.
Qed.

Lemma select_loop_run indicator dataframe df :
  forall its masks (h : heap) subsets acc,
    h !! dataframe = Some df ->
    Forall2 (fun it mask => pd_eval df it.2 = Ok mask) its masks ->
    Forall2 (fun l d => h !! l = Some d) subsets acc ->
    exists new ext,
      select_loop pd_eval dataframe indicator its subsets h
      = (Ok (subsets ++ new), h ++ ext)
      /\ length new = length its
      /\ Forall2 (fun l d => (h ++ ext) !! l = Some d)
           (subsets ++ new)
           (acc ++ zip_with (tagged_subset indicator df) its masks).
Proof.
  induction its as [|[que_id que_str] its IH];
    intros masks h subsets acc Hdf Hev Hacc.
  - apply Forall2_nil_inv_l in Hev as ->.
    exists [], []. simpl. rewrite !app_nil_r. by repeat split.
  - apply Forall2_cons_inv_l in Hev as (mask & masks' & Hm & Hev & ->).
    simpl in Hm. simpl select_loop. unfold bind at 1.
    rewrite (DataFrame_query_run _ _ _ _ _ Hdf Hm).
    set (queried := Frame_ (columns df) (List.filter mask (rows df))).
    unfold bind at 1.
    rewrite (DataFrame_copy_run _ _ _ (lookup_fresh h queried)).
    unfold bind at 1.
    rewrite (DataFrame_assign_run _ _ queried indicator que_id
               (lookup_fresh (h ++ [queried]) queried)).
    set (h1 := (h ++ [queried]) ++ [queried]).
    set (t := set_column indicator que_id queried).
    destruct (IH masks' (h1 ++ [t]) (subsets ++ [length h1]) (acc ++ [t]))
      as (new & ext & Hrun & Hlen & Hall).
    + apply lookup_app_l_Some. unfold h1.
      by do 2 apply lookup_app_l_Some.
    + exact Hev.
    + apply Forall2_app.
      * apply Forall2_lookup_weaken. unfold h1.
        by do 2 apply Forall2_lookup_weaken.
      * constructor; [apply lookup_fresh | constructor].
    + exists (length h1 :: new), ([queried; queried; t] ++ ext).
      split; [|split].
      * etrans; [exact Hrun|]. f_equal.
        -- by rewrite <- app_assoc.
        -- unfold h1. by rewrite <- !app_assoc.
      * simpl. by rewrite Hlen.
      * replace (subsets ++ length h1 :: new)
          with ((subsets ++ [length h1]) ++ new) by by rewrite <- app_assoc.
        replace (h ++ [queried; queried; t] ++ ext)
          with ((h1 ++ [t]) ++ ext)
          by (unfold h1; by rewrite <- !app_assoc).
        simpl zip_with.
        replace (acc ++ tagged_subset indicator df (que_id, que_str) mask
                      :: zip_with (tagged_subset indicator df) its masks')
          with ((acc ++ [t]) ++ zip_with (tagged_subset indicator df) its masks')
          by by rewrite <- app_assoc.
        exact Hall.
Qed.

(** *** The result of the concatenation *)

Lemma normalized_items qs :
  items (list_to_dict (str_to_dict qs)) = Ok (normalized qs).
Proof. by destruct qs. Qed.

Lemma enumerate_lookup {A} (l : list A) (i : nat) :
  enumerate l !! i = (fun que => (VInt (Z.of_nat i), que)) <$> l !! i.
Proof. unfold enumerate. by rewrite list_lookup_imap. Qed.

Lemma concat_frames_rows indicator df its masks :
  rows (concat_frames (zip_with (tagged_subset indicator df) its masks))
  = selected indicator df its masks.
Proof.
  unfold concat_frames, selected. simpl. f_equal.
  revert masks. induction its as [|it its IH]; intros [|mask masks];
    simpl; try reflexivity.
  by rewrite IH.
Qed.

Lemma filter_all {A} (f : A -> bool) (l : list A) :
  Forall (fun a => f a = true) l -> List.filter f l = l.
Proof.
  induction 1 as [|a l Ha _ IH]; [done|].
  cbn [List.filter]. by rewrite Ha, IH.
Qed.

Lemma filter_none {A} (f : A -> bool) (l : list A) :
  Forall (fun a => f a = false) l -> List.filter f l = [].
Proof.
  induction 1 as [|a l Ha _ IH]; [done|].
  cbn [List.filter]. by rewrite Ha, IH.
Qed.

Lemma union_columns_nil cols : union_columns [] cols = cols.
Proof.
  unfold union_columns. rewrite filter_all; [done|].
  apply Forall_forall. intros c _.
  apply bool_decide_eq_true_2, not_elem_of_nil.
Qed.

Lemma union_columns_same cols : union_columns cols cols = cols.
Proof.
  unfold union_columns. rewrite filter_none; [by rewrite app_nil_r|].
  apply Forall_forall. intros c Hc.
  apply bool_decide_eq_false_2. tauto.
Qed.

Lemma concat_frames_columns indicator df its masks :
  its <> [] -> length its = length masks ->
  columns (concat_frames (zip_with (tagged_subset indicator df) its masks))
  = with_indicator indicator df.
Proof.
  intros Hne Hlen. unfold concat_frames. simpl.
  set (cols := with_indicator indicator df).
  assert (Hfold : forall its masks,
            foldl union_columns cols
              (map columns (zip_with (tagged_subset indicator df) its masks))
            = cols).
  { clear. intros its. induction its as [|it its IH];
      intros [|mask masks]; simpl; try reflexivity.
    change (if decide (indicator ∈ columns df) then columns df
            else columns df ++ [indicator]) with cols.
    rewrite union_columns_same. apply IH. }
  destruct its as [|it its]; [done|].
  destruct masks as [|mask masks]; [done|]. simpl.
  change (if decide (indicator ∈ columns df) then columns df
          else columns df ++ [indicator]) with cols.
  rewrite union_columns_nil. apply Hfold.
Qed.

(** *** Rows of the subsets *)

Lemma filter_sublist {A} (f : A -> bool) (l : list A) :
  sublist (List.filter f l) l.
Proof.
  induction l as [|a l IH]; simpl; [constructor|].
  destruct (f a); by constructor.
Qed.

Lemma map_sublist {A B} (f : A -> B) (l k : list A) :
  sublist l k -> sublist (map f l) (map f k).
Proof. induction 1; simpl; by constructor. Qed.

Lemma subset_rows_labels indicator df que_id mask :
  map label (subset_rows indicator df que_id mask)
  = map label (List.filter mask (rows df)).
Proof. unfold subset_rows. rewrite map_map. reflexivity. Qed.

Lemma subset_rows_order indicator df que_id mask :
  sublist (map label (subset_rows indicator df que_id mask))
          (map label (rows df)).
Proof.
  rewrite subset_rows_labels. apply map_sublist, filter_sublist.
Qed.

Lemma selected_elem indicator df its masks r' :
  r' ∈ selected indicator df its masks ->
  exists i que_id que_str mask r,
    its !! i = Some (que_id, que_str) /\ masks !! i = Some mask
    /\ r ∈ rows df /\ mask r = true /\ r' = set_cell indicator que_id r.
Proof.
  unfold selected. revert masks.
  induction its as [|[que_id que_str] its IH]; intros [|mask masks]; simpl;
    try (intros Hin; by apply elem_of_nil in Hin).
  rewrite elem_of_app. intros [Hin|Hin].
  - unfold subset_rows in Hin. apply list_elem_of_fmap in Hin as (r & -> & Hr).
    apply list_elem_of_In, filter_In in Hr as [Hr Hm].
    exists 0%nat, que_id, que_str, mask, r.
    repeat split; try done. by apply list_elem_of_In.
  - destruct (IH _ Hin) as (i & q & qs & m & r & ? & ? & ? & ? & ?).
    exists (S i), q, qs, m, r. by repeat split.
Qed.

Lemma occurrences_app l rs1 rs2 :
  occurrences l (rs1 ++ rs2) = (occurrences l rs1 + occurrences l rs2)%nat.
Proof. unfold occurrences. by rewrite List.filter_app, length_app. Qed.

Lemma occurrences_tagged indicator que_id l rs :
  occurrences l (map (set_cell indicator que_id) rs) = occurrences l rs.
Proof.
  unfold occurrences. induction rs as [|r rs IH]; [done|]. simpl.
  change (has_label l (set_cell indicator que_id r)) with (has_label l r).
  destruct (has_label l r); simpl; by rewrite IH.
Qed.

Lemma occurrences_selected indicator df l its masks :
  length its = length masks ->
  occurrences l (selected indicator df its masks)
  = sum_list (map (fun mask => occurrences l (List.filter mask (rows df)))
                masks).
Proof.
  unfold selected. revert masks.
  induction its as [|it its IH]; intros [|mask masks] Hlen; simpl in *;
    try done.
  rewrite occurrences_app. unfold subset_rows at 1.
  rewrite occurrences_tagged. f_equal. apply IH. lia.
Qed.

Lemma occurrences_absent l rs :
  l ∉ map label rs -> occurrences l rs = 0%nat.
Proof.
  unfold occurrences. induction rs as [|r rs IH]; [done|]. simpl.
  intros Hn. apply not_elem_of_cons in Hn as [Hne Hn].
  unfold has_label at 1. rewrite bool_decide_eq_false_2 by done. by apply IH.
Qed.

Lemma occurrences_filter_absent l mask rs :
  l ∉ map label rs -> occurrences l (List.filter mask rs) = 0%nat.
Proof.
  intros Hn. apply occurrences_absent. intros Hin. apply Hn.
  eapply elem_of_sublist; [exact Hin|].
  apply map_sublist, filter_sublist.
Qed.

Lemma occurrences_unique mask rs r :
  NoDup (map label rs) -> r ∈ rs ->
  occurrences (label r) (List.filter mask rs)
  = if mask r then 1%nat else 0%nat.
Proof.
  induction rs as [|a rs IH]; intros Hnd Hin; [by apply elem_of_nil in Hin|].
  simpl in Hnd. apply NoDup_cons in Hnd as [Ha Hnd].
  apply elem_of_cons in Hin as [->|Hin].
  - simpl. destruct (mask a) eqn:Hm.
    + unfold occurrences. simpl. unfold has_label at 1.
      rewrite bool_decide_eq_true_2 by done. simpl. f_equal.
      by apply occurrences_filter_absent.
    + by apply occurrences_filter_absent.
  - assert (Hne : label a <> label r).
    { intros Heq. apply Ha. rewrite Heq. by apply list_elem_of_fmap_2. }
    simpl. destruct (mask a).
    + unfold occurrences. simpl. unfold has_label at 1.
      rewrite bool_decide_eq_false_2 by done. by apply IH.
    + by apply IH.
Qed.

Lemma matching_queries (masks : list (row -> bool)) rs r :
  NoDup (map label rs) -> r ∈ rs ->
  sum_list (map (fun mask => occurrences (label r) (List.filter mask rs)) masks)
  = length (List.filter (fun mask : row -> bool => mask r) masks).
Proof.
  intros Hnd Hin. induction masks as [|mask masks IH]; [done|]. simpl.
  rewrite (occurrences_unique _ _ _ Hnd Hin), IH.
  by destruct (mask r).
Qed.

(** *** Nothing that exists is written to *)

Lemma preserves_ret {A} (a : A) : preserves (@ret heap A a).
Proof. intros h. done. Qed.

Lemma preserves_throw {A} e : preserves (@throw heap A e).
Proof. intros h. done. Qed.

Lemma preserves_lift {A} (r : result A) : preserves (@lift heap A r).
Proof. intros h. done. Qed.

Lemma preserves_deref l : preserves (deref l).
Proof. intros h. unfold deref. by destruct (h !! l). Qed.

Lemma preserves_alloc df : preserves (alloc df).
Proof. intros h. by apply prefix_app_r. Qed.

Lemma preserves_bind {A B} (m : M heap A) (k : A -> M heap B) :
  preserves m -> (forall a, preserves (k a)) -> preserves (bind m k).
Proof.
  intros Hm Hk h. unfold bind. specialize (Hm h).
  destruct (m h) as [[a|e] h1]; simpl in *; [|done].
  etrans; [exact Hm|apply Hk].
Qed.

Create HintDb preserves.

#[local] Hint Resolve preserves_ret preserves_throw preserves_lift
  preserves_deref preserves_alloc : preserves.

Ltac preserves_steps :=
  repeat (apply preserves_bind; [solve [eauto with preserves]|intros ?]);
  eauto with preserves.

Lemma preserves_query self expr :
  preserves (DataFrame_query pd_eval self expr).
Proof. unfold DataFrame_query. preserves_steps. Qed.

Lemma preserves_copy self : preserves (DataFrame_copy self).
Proof. unfold DataFrame_copy. preserves_steps. Qed.

(** [assign] writes in place, but only to the copy it has just made. *)
Lemma preserves_assign self key v : preserves (DataFrame_assign self key v).
Proof.
  intros h. destruct (h !! self) as [df|] eqn:Hl.
  - rewrite (DataFrame_assign_run _ _ _ _ _ Hl). by apply prefix_app_r.
  - unfold DataFrame_assign, DataFrame_copy, bind, deref. by rewrite Hl.
Qed.

#[local] Hint Resolve preserves_query preserves_copy preserves_assign
  : preserves.

Lemma preserves_select_loop dataframe indicator its :
  forall subsets,
    preserves (select_loop pd_eval dataframe indicator its subsets).
Proof.
  induction its as [|[que_id que_str] its IH]; intros subsets; simpl.
  - apply preserves_ret.
  - preserves_steps.
Qed.

Lemma preserves_deref_all ls : preserves (deref_all ls).
Proof. induction ls as [|l ls IH]; simpl; preserves_steps. Qed.

Lemma preserves_concat objs : preserves (pd_concat objs).
Proof.
  destruct objs; simpl; [apply preserves_throw|].
  apply preserves_bind; [apply (preserves_deref_all (_ :: _))|].
  intros ?. apply preserves_alloc.
Qed.

#[local] Hint Resolve preserves_select_loop preserves_concat : preserves.

Lemma preserves_select dataframe qs indicator :
  preserves (select pd_eval dataframe qs indicator).
Proof. unfold select. preserves_steps. Qed.

Lemma deref_all_heap ls (h : heap) : (deref_all ls h).2 = h.
Proof.
  revert h. induction ls as [|l ls IH]; intros h; [done|].
  simpl. unfold bind, deref.
  destruct (h !! l); [|done].
  specialize (IH h). by destruct (deref_all ls h) as [[dfs|e] h1].
Qed.

(** The frame [pd.concat] returns is a new object. *)
Lemma pd_concat_fresh objs (h : heap) merged h' :
  pd_concat objs h = (Ok merged, h') ->
  merged = length h /\ length h' = S (length h).
Proof.
  destruct objs as [|l ls]; [done|].
  unfold pd_concat, bind. pose proof (deref_all_heap (l :: ls) h) as Hh.
  destruct (deref_all (l :: ls) h) as [[dfs|e] h1]; [|done].
  simpl in Hh. subst h1. unfold alloc. intros [= <- <-].
  rewrite length_app. simpl. lia.
Qed.

Lemma select_fresh dataframe qs indicator (h : heap) merged h' :
  select pd_eval dataframe qs indicator h = (Ok merged, h') ->
  (length h <= merged)%nat /\ h !! merged = None.
Proof.
  unfold select. unfold bind at 1, lift at 1.
  destruct (items _) as [its|e]; [|done].
  unfold bind at 1.
  pose proof (preserves_select_loop dataframe indicator its [] h) as Hpre.
  destruct (select_loop _ _ _ _ _ h) as [[subsets|e] h1]; [|done].
  simpl in Hpre. unfold bind at 1.
  destruct (pd_concat subsets h1) as [[m|e] h2] eqn:Hc; [|done].
  apply pd_concat_fresh in Hc as [-> _]. unfold ret. intros [= <- <-].
  apply prefix_length in Hpre.
  split; [done|]. by apply lookup_ge_None_2.
Qed.

(** *** The specification of [select] *)

(** C1 (amended): [select] turns its queries into a mapping ([normalized]:
    a lone string under the empty label, a list under the positions of its
    elements, a mapping as it is).  When the mapping holds at least one
    query and pandas evaluates each of them on the input table, [select]
    returns a new frame whose rows are the subsets of the queries one
    after the other, every query evaluated on the same unmodified input;
    each row is a row of the input kept by the query's mask, with its
    index label and its other cells, and the query's label in the
    indicator column; each subset keeps the order of the input; and a row
    is there once per query that keeps it. *)
Theorem select_concatenates (h : heap) dataframe df qs indicator masks :
  h !! dataframe = Some df ->
  normalized qs <> [] ->
  Forall2 (fun it mask => pd_eval df it.2 = Ok mask) (normalized qs) masks ->
  items (list_to_dict (str_to_dict qs)) = Ok (normalized qs)
  /\ (forall s, qs = QStr s -> normalized qs = [(VStr "", s)])
  /\ (forall l (i : nat) que, qs = QList l -> l !! i = Some que ->
        normalized qs !! i = Some (VInt (Z.of_nat i), que))
  /\ (forall l, qs = QList l -> length (normalized qs) = length l)
  /\ (forall d, qs = QDict d -> normalized qs = d)
  /\ exists merged h' out,
      select pd_eval dataframe qs indicator h = (Ok merged, h')
      /\ h' !! merged = Some out
      /\ h' !! dataframe = Some df
      /\ columns out = with_indicator indicator df
      /\ rows out = selected indicator df (normalized qs) masks
      /\ (forall r', r' ∈ rows out ->
            exists (i : nat) que_id que_str mask r,
              normalized qs !! i = Some (que_id, que_str)
              /\ masks !! i = Some mask
              /\ r ∈ rows df /\ mask r = true
              /\ label r' = label r
              /\ cells r' !! indicator = Some que_id
              /\ (forall c, c <> indicator -> cells r' !! c = cells r !! c))
      /\ (forall (i : nat) que_id que_str mask,
            normalized qs !! i = Some (que_id, que_str) ->
            masks !! i = Some mask ->
            sublist (map label (subset_rows indicator df que_id mask))
                    (map label (rows df)))
      /\ (forall l,
            occurrences l (rows out)
            = sum_list (map (fun mask =>
                               occurrences l (List.filter mask (rows df)))
                          masks))
      /\ (NoDup (map label (rows df)) ->
          forall r, r ∈ rows df ->
            occurrences (label r) (rows out)
            = length (List.filter (fun mask : row -> bool => mask r) masks)).
Proof.
  intros Hdf Hne Hev.
  split; [apply normalized_items|].
  split; [by intros s ->|].
  split; [intros l i que -> Hi; simpl; by rewrite enumerate_lookup, Hi|].
  split; [intros l ->; simpl; unfold enumerate; by rewrite length_imap|].
  split; [by intros d ->|].
  destruct (select_loop_run indicator dataframe df (normalized qs) masks
              h [] [] Hdf Hev) as (new & ext & Hrun & Hlen & Hall);
    [constructor|].
  simpl in Hall, Hrun.
  assert (Hnew : new <> []).
  { intros ->. destruct (normalized qs); [done|discriminate]. }
  pose proof (Forall2_length _ _ _ Hev) as Hlens.
  exists (length (h ++ ext)),
    ((h ++ ext) ++
       [concat_frames (zip_with (tagged_subset indicator df)
                         (normalized qs) masks)]),
    (concat_frames (zip_with (tagged_subset indicator df)
                      (normalized qs) masks)).
  assert (Hrows := concat_frames_rows indicator df (normalized qs) masks).
  split; [|split; [|split; [|split; [|split; [|split; [|split; [|split]]]]]]].
  - unfold select. unfold bind at 1, lift at 1. rewrite normalized_items.
    unfold bind at 1. rewrite Hrun. unfold bind at 1.
    by rewrite (pd_concat_run _ _ _ Hnew Hall).
  - apply lookup_fresh.
  - by do 2 apply lookup_app_l_Some.
  - by apply concat_frames_columns.
  - exact Hrows.
  - intros r' Hin. rewrite Hrows in Hin.
    apply selected_elem in Hin
      as (i & que_id & que_str & mask & r & Hi & Hm & Hr & Hmr & ->).
    exists i, que_id, que_str, mask, r. repeat split; try done.
    + simpl. apply lookup_insert_eq.
    + intros c Hc. simpl. by apply lookup_insert_ne.
  - intros i que_id que_str mask _ _. apply subset_rows_order.
  - intros l. rewrite Hrows. by apply occurrences_selected.
  - intros Hnd r Hr. rewrite Hrows, occurrences_selected by done.
    by apply matching_queries.
Qed.

(** C10: with an empty list or an empty mapping of queries, [select]
    raises the [ValueError] of [pd.concat] (which is given no frame), and
    returns no table; the heap is as it was. *)
Theorem select_no_queries_raises (h : heap) dataframe indicator :
  select pd_eval dataframe (QList []) indicator h
  = (Raise (ValueError "No objects to concatenate"), h)
  /\ select pd_eval dataframe (QDict []) indicator h
     = (Raise (ValueError "No objects to concatenate"), h)
  /\ raises (select pd_eval dataframe (QList []) indicator h).1
  /\ raises (select pd_eval dataframe (QDict []) indicator h).1.
Proof. by repeat split. Qed.

(** C9: when [select] returns, the input frame is what it was before the
    call, and so is every other frame that existed: the only write in
    place ([assign]) is to a copy made inside [select], and the result is
    a new object. *)
Theorem select_leaves_input_unchanged (h : heap) dataframe df qs indicator
    merged h' :
  h !! dataframe = Some df ->
  select pd_eval dataframe qs indicator h = (Ok merged, h') ->
  h' !! dataframe = Some df
  /\ (forall l d, h !! l = Some d -> h' !! l = Some d)
  /\ h !! merged = None
  /\ merged <> dataframe.
Proof.
  intros Hdf Hsel.
  pose proof (preserves_select dataframe qs indicator h) as Hpre.
  rewrite Hsel in Hpre. simpl in Hpre. destruct Hpre as [ext ->].
  apply select_fresh in Hsel as [_ Hfresh].
  repeat split.
  - by apply lookup_app_l_Some.
  - intros l d Hl. by apply lookup_app_l_Some.
  - exact Hfresh.
  - intros ->. congruence.
Qed.

End Runs.

(** The example of the specification: the table with column [col] and
    rows 0, 1, 2, 3, and the queries [a: col > 1] and [b: col <= 1]. *)
Example select_example :
  let out := select eval_col 0%nat
               (QDict [(VStr "a", "col > 1"); (VStr "b", "col <= 1")])
               default_indicator [range_frame] in
  out.1 = Ok 7%nat
  /\ (fun d => (columns d,
               map (fun r => (label r, int_cell "col" r,
                              cells r !! default_indicator)) (rows d)))
       <$> out.2 !! 7%nat
     = Some (["col"; "query"],
             [ (VInt 2, 2, Some (VStr "a")); (VInt 3, 3, Some (VStr "a"));
               (VInt 0, 0, Some (VStr "b")); (VInt 1, 1, Some (VStr "b")) ])
  /\ out.2 !! 0%nat = Some range_frame.
Proof. vm_compute. by repeat split. Qed.

Lemma select_concatenates_witness :
  ([range_frame] : heap) !! 0%nat = Some range_frame
  /\ normalized (QList ["col > 1"; "col <= 1"]) <> []
  /\ exists merged h' out,
      select eval_col 0%nat (QList ["col > 1"; "col <= 1"])
        default_indicator [range_frame] = (Ok merged, h')
      /\ h' !! merged = Some out
      /\ rows out
         = selected default_indicator range_frame
             (normalized (QList ["col > 1"; "col <= 1"]))
             [ (fun r => 1 <? int_cell "col" r);
               (fun r => int_cell "col" r <=? 1) ].
Proof.
  split; [reflexivity|]. split; [discriminate|].
  destruct (select_concatenates eval_col [range_frame] 0%nat range_frame
              (QList ["col > 1"; "col <= 1"]) default_indicator
              [ (fun r => 1 <? int_cell "col" r);
                (fun r => int_cell "col" r <=? 1) ])
    as (_ & _ & _ & _ & _ & merged & h' & out & Hsel & Hout & _ & _ & Hrows & _).
  - reflexivity.
  - discriminate.
  - repeat constructor.
  - exists merged, h', out. by repeat split.
Defined.

(** C1 as it is worded has [select] return a concatenation for every
    queries argument; on an empty list it returns nothing. *)
Lemma select_empty_list_returns_nothing :
  (select eval_col 0%nat (QList []) default_indicator [range_frame]).1
  = Raise (ValueError "No objects to concatenate")
  /\ ~ exists merged h',
        select eval_col 0%nat (QList []) default_indicator [range_frame]
        = (Ok merged, h').
Proof.
  split; [reflexivity|]. intros (merged & h' & Hsel). discriminate Hsel.
Qed.

Lemma select_leaves_input_unchanged_witness :
  let out := select eval_col 0%nat
               (QDict [(VStr "a", "col > 1"); (VStr "b", "col <= 1")])
               default_indicator [range_frame] in
  ([range_frame] : heap) !! 0%nat = Some range_frame
  /\ out = (Ok 7%nat, out.2)
  /\ out.2 !! 0%nat = Some range_frame
  /\ ([range_frame] : heap) !! 7%nat = None.
Proof.
  intros out.
  assert (Hdf : ([range_frame] : heap) !! 0%nat = Some range_frame)
    by reflexivity.
  assert (Hout : out = (Ok 7%nat, out.2)) by (vm_compute; reflexivity).
  destruct (select_leaves_input_unchanged eval_col [range_frame] 0%nat
              range_frame _ default_indicator 7%nat out.2 Hdf Hout)
    as (Hsame & _ & Hfresh & _).
  by repeat split.
Defined.

End FrameSpec.

(** ** [get_logger] *)

Module LoggingSpec.
Import Logging.

Lemma find_update l l' f reg :
  find l (update l' f reg)
  = if decide (l = l') then f <$> find l reg else find l reg.
Proof.
  destruct (decide (l = l')) as [->|Hne].
  - destruct l' as [|n]; simpl; [done|]. by rewrite lookup_alter_eq.
  - destruct l as [|n], l' as [|n']; simpl; try done.
    rewrite lookup_alter_ne; [done|congruence].
Qed.

Lemma find_update_eq l f reg : find l (update l f reg) = f <$> find l reg.
Proof. rewrite find_update. by case_decide. Qed.

Lemma find_update_ne l l' f reg :
  l <> l' -> find l (update l' f reg) = find l reg.
Proof. intros Hne. rewrite find_update. by case_decide. Qed.

Lemma getLogger_id name reg : (getLogger name reg).1 = logger_of name.
Proof.
  unfold getLogger. destruct (logger_of name) as [|n]; [done|].
  by destruct (loggerDict reg !! n).
Qed.

Lemma getLogger_find name reg :
  find (logger_of name) (getLogger name reg).2 = Some (current name reg).
Proof.
  unfold getLogger, current. destruct (logger_of name) as [|n]; [done|].
  simpl. destruct (loggerDict reg !! n) as [lg|] eqn:Hn; simpl.
  - by rewrite Hn.
  - by rewrite lookup_insert_eq.
Qed.

Lemma getLogger_others name reg l :
  l <> logger_of name -> find l (getLogger name reg).2 = find l reg.
Proof.
  unfold getLogger. destruct (logger_of name) as [|n]; [done|].
  destruct (loggerDict reg !! n) as [lg|] eqn:Hn; [done|].
  destruct l as [|n']; [done|]. simpl. intros Hne.
  rewrite lookup_insert_ne; [done|congruence].
Qed.

(** One call, in full: the logger of the name, configured; every other
    logger as it was. *)
Lemma get_logger_run name lvl reg :
  (get_logger name lvl reg).1 = logger_of name
  /\ find (logger_of name) (get_logger name lvl reg).2
     = Some (configured lvl (current name reg))
  /\ (forall l, l <> logger_of name ->
        find l (get_logger name lvl reg).2 = find l reg).
Proof.
  unfold get_logger.
  pose proof (getLogger_id name reg) as Hid.
  pose proof (getLogger_find name reg) as Hfind.
  pose proof (getLogger_others name reg) as Hothers.
  destruct (getLogger name reg) as [logger reg1]. simpl in *. subst logger.
  rewrite Hfind. unfold configured, attach.
  destruct (handlers (current name reg)) as [|hd tl] eqn:Hh; simpl.
  - split; [done|]. split.
    + by rewrite !find_update_eq, Hfind.
    + intros l Hne. rewrite !find_update_ne by done. by apply Hothers.
  - split; [done|]. split.
    + by rewrite !find_update_eq, Hfind.
    + intros l Hne. rewrite !find_update_ne by done. by apply Hothers.
Qed.

Lemma current_after name lvl reg :
  current name (get_logger name lvl reg).2
  = configured lvl (current name reg).
Proof.
  unfold current at 1.
  by destruct (get_logger_run name lvl reg) as (_ & -> & _).
Qed.

Lemma attach_handlers lg :
  handlers (attach lg)
  = match handlers lg with [] => [the_handler] | hs => hs end.
Proof.
  unfold attach. destruct (handlers lg) as [|hd tl] eqn:Hh; simpl.
  - by rewrite Hh.
  - exact Hh.
Qed.

Lemma configured_handlers lvl lg :
  handlers (configured lvl lg) = handlers (attach lg).
Proof. done. Qed.

Lemma configured_again lvl lvl' lg :
  configured lvl' (configured lvl lg) = configured lvl' lg.
Proof.
  unfold configured, attach.
  destruct (handlers lg) as [|hd tl] eqn:Hh; simpl; rewrite ?Hh; done.
Qed.

Lemma last_cons {A} (l : list A) (a d : A) :
  List.last (a :: l) d = List.last l a.
Proof.
  revert a d. induction l as [|b l IH]; intros a d; [done|].
  change (List.last (a :: b :: l) d) with (List.last (b :: l) d).
  by rewrite !IH.
Qed.

Lemma get_logger_calls_current name lvls lvl reg :
  current name (get_logger_calls name (lvl :: lvls) reg)
  = configured (List.last lvls lvl) (current name reg).
Proof.
  unfold get_logger_calls. revert lvl reg.
  induction lvls as [|lvl' lvls IH]; intros lvl reg.
  - simpl. apply current_after.
  - change (foldl _ reg (lvl :: lvl' :: lvls))
      with (foldl (fun reg lvl => (get_logger name lvl reg).2)
              (get_logger name lvl reg).2 (lvl' :: lvls)).
    rewrite IH, current_after, configured_again.
    by rewrite (last_cons lvls lvl' lvl).
Qed.

(** C4 (amended): a call of [get_logger] returns the logger of the name
    with its level set to the threshold the caller chose (INFO when none
    is given) and its [last_print] attribute reset to 0; it attaches the
    stream handler with the fixed timestamped format when the logger has
    no handler and attaches nothing otherwise, so that after any number of
    calls on a name whose logger started without handlers there is exactly
    that one handler; a call on a logger that has a handler changes its
    level and its [last_print] and nothing else about it. *)
Theorem get_logger_attaches_once (name : option string) (lvl : option Z)
    (reg : registry) :
  let lg0 := current name reg in
  let out := get_logger name lvl reg in
  out.1 = logger_of name
  /\ chosen None = INFO
  /\ formatter the_handler
     = Some {| fmt := "%(asctime)s %(name)s [%(levelname)-s]: %(message)s";
               datefmt := "%Y-%m-%d %H:%M:%S" |}
  /\ (exists lg,
        find (logger_of name) out.2 = Some lg
        /\ level lg = chosen lvl
        /\ last_print lg = Some 0
        /\ propagate lg = propagate lg0
        /\ disabled lg = disabled lg0
        /\ (handlers lg0 = [] -> handlers lg = [the_handler])
        /\ (handlers lg0 <> [] ->
            handlers lg = handlers lg0
            /\ lg = set_last_print 0 (setLevel (chosen lvl) lg0)))
  /\ (forall lvls,
        handlers lg0 = [] ->
        let lg := current name (get_logger_calls name (lvl :: lvls) reg) in
        handlers lg = [the_handler]
        /\ level lg = chosen (List.last lvls lvl)).
Proof.
  intros lg0 out.
  destruct (get_logger_run name lvl reg) as (Hid & Hfind & Hothers).
  split; [exact Hid|]. split; [done|]. split; [done|].
  split.
  - exists (configured lvl lg0). split; [exact Hfind|].
    unfold configured, attach.
    destruct (handlers lg0) as [|hd tl] eqn:Hh; simpl; rewrite ?Hh;
      repeat split; try done.
  - intros lvls Hnone lg. subst lg.
    rewrite get_logger_calls_current, configured_handlers, attach_handlers.
    fold lg0. by rewrite Hnone.
Qed.

Example get_logger_twice :
  let reg := get_logger_calls (Some "app") [None; Some DEBUG] initial in
  find (Named "app") reg
  = Some {| level := DEBUG; handlers := [the_handler]; propagate := true;
            disabled := false; last_print := Some 0 |}
  /\ find Root reg = Some (new_logger WARNING).
Proof. vm_compute. done. Qed.

Example get_logger_keeps_other_handler :
  let reg1 := update (Named "app") (addHandler StreamHandler)
                (getLogger (Some "app") initial).2 in
  let reg2 := (get_logger (Some "app") None reg1).2 in
  (handlers <$> find (Named "app") reg2) = Some [StreamHandler].
Proof. vm_compute. reflexivity. Qed.

(** C4 as it is worded has a later call change the level and nothing
    else; it also sets [last_print] back to 0, which the caller may have
    changed since the first call. *)
Lemma get_logger_resets_last_print :
  let reg1 := (get_logger (Some "app") None initial).2 in
  let reg2 := update (Named "app") (set_last_print 7) reg1 in
  let reg3 := (get_logger (Some "app") (Some DEBUG) reg2).2 in
  (handlers <$> find (Named "app") reg2) = Some [the_handler]
  /\ (last_print <$> find (Named "app") reg2) = Some (Some 7)
  /\ (last_print <$> find (Named "app") reg3) = Some (Some 0)
  /\ find (Named "app") reg3
     <> (setLevel DEBUG <$> find (Named "app") reg2).
Proof. vm_compute. repeat split; discriminate. Qed.

End LoggingSpec.

(** ** [generate_dataframe] *)

Module GenerateSpec.
Import Frame Generate.

Section Generator.

Variable BitGen : Type.
Variable seed_state : Z -> result BitGen.
Variable normal uniform exponential : BitGen -> value * BitGen.
Variable integers : Z -> Z -> BitGen -> value * BitGen.
Variable index_below : nat -> BitGen -> nat * BitGen.

Local Abbreviation generate :=
  (generate_dataframe BitGen seed_state normal uniform exponential
     integers index_below).
Local Abbreviation columns_of :=
  (sampled BitGen normal uniform exponential integers index_below).

Lemma draws_length {A} (sample : BitGen -> A * BitGen) n st :
  length (draws BitGen sample n st).1 = n.
Proof.
  revert st. induction n as [|n IH]; intros st; [done|].
  simpl. destruct (sample st) as [x st1]. specialize (IH st1).
  destruct (draws BitGen sample n st1) as [xs st2]. simpl in *. by rewrite IH.
Qed.

(** A draw from the generator that was allocated last. *)
Lemma draw_last {A} (sample : BitGen -> A * BitGen) (h : list BitGen) st :
  draw BitGen sample (length h) (h ++ [st])
  = (Ok (sample st).1, h ++ [(sample st).2]).
Proof.
  unfold draw. rewrite lookup_app_r, Nat.sub_diag by lia. simpl.
  destruct (sample st) as [x st']. simpl.
  by rewrite insert_app_r_alt, Nat.sub_diag by lia.
Qed.

Lemma rng_choice_last a n (h : list BitGen) st :
  a <> [] ->
  rng_choice BitGen index_below a n (length h) (h ++ [st])
  = (Ok (pick a (draws BitGen (index_below (length a)) n st).1),
     h ++ [(draws BitGen (index_below (length a)) n st).2]).
Proof.
  intros Ha. destruct a as [|x a]; [done|].
  unfold rng_choice, bind. by rewrite draw_last.
Qed.

Lemma date_range_length :
  length (pd_date_range day_2023_01_01 day_2024_01_01) = 366%nat.
Proof. vm_compute. reflexivity. Qed.

Lemma date_range_nonempty :
  pd_date_range day_2023_01_01 day_2024_01_01 <> [].
Proof.
  intros Hnil. pose proof date_range_length as Hlen.
  rewrite Hnil in Hlen. discriminate.
Qed.

Lemma generate_run n seed st0 (h : list BitGen) :
  seed_state seed = Ok st0 ->
  generate n seed h
  = (pd_DataFrame (columns_of n st0).1, h ++ [(columns_of n st0).2]).
Proof.
  intros Hseed. unfold generate_dataframe, sampled.
  unfold bind at 1, default_rng, bind at 1, lift at 1. rewrite Hseed.
  unfold bind at 1. rewrite draw_last.
  destruct (draws BitGen normal n st0) as [A st1]. cbn [fst snd].
  unfold bind at 1. rewrite draw_last.
  destruct (draws BitGen uniform n st1) as [B st2]. cbn [fst snd].
  unfold bind at 1. rewrite draw_last.
  destruct (draws BitGen (integers 0 100) n st2) as [C st3].
  cbn [fst snd].
  unfold bind at 1. rewrite draw_last.
  destruct (draws BitGen exponential n st3) as [D st4]. cbn [fst snd].
  unfold bind at 1. rewrite rng_choice_last by done.
  destruct (draws BitGen (index_below (length ingredients)) n st4)
    as [E st5]. cbn [fst snd].
  unfold bind at 1. rewrite rng_choice_last by done.
  destruct (draws BitGen (index_below (length (map str_i (seq 0 10)))) n st5)
    as [F st6]. cbn [fst snd].
  unfold bind at 1. rewrite rng_choice_last by apply date_range_nonempty.
  destruct (draws BitGen
              (index_below
                 (length (pd_date_range day_2023_01_01 day_2024_01_01)))
              n st6) as [G st7]. cbn [fst snd].
  unfold bind, lift, ret.
  by destruct (pd_DataFrame _).
Qed.

Lemma generate_refused n seed e (h : list BitGen) :
  seed_state seed = Raise e -> generate n seed h = (Raise e, h).
Proof.
  intros Hseed. unfold generate_dataframe.
  unfold bind at 1, default_rng, bind at 1, lift at 1. by rewrite Hseed.
Qed.

Lemma pick_length a idx : length (pick a idx) = length idx.
Proof. unfold pick. by rewrite length_map. Qed.

Lemma columns_of_sized n st0 :
  map fst (columns_of n st0).1 = seven_fields
  /\ Forall (fun c => length c.2 = n) (columns_of n st0).1.
Proof.
  unfold sampled.
  pose proof (draws_length normal n st0) as HA.
  destruct (draws BitGen normal n st0) as [A st1].
  pose proof (draws_length uniform n st1) as HB.
  destruct (draws BitGen uniform n st1) as [B st2].
  pose proof (draws_length (integers 0 100) n st2) as HC.
  destruct (draws BitGen (integers 0 100) n st2) as [C st3].
  pose proof (draws_length exponential n st3) as HD.
  destruct (draws BitGen exponential n st3) as [D st4].
  pose proof (draws_length (index_below (length ingredients)) n st4) as HE.
  destruct (draws BitGen (index_below (length ingredients)) n st4)
    as [E st5].
  pose proof (draws_length
                (index_below (length (map str_i (seq 0 10)))) n st5) as HF.
  destruct (draws BitGen (index_below (length (map str_i (seq 0 10)))) n st5)
    as [F st6].
  pose proof (draws_length
                (index_below
                   (length (pd_date_range day_2023_01_01 day_2024_01_01)))
                n st6) as HG.
  destruct (draws BitGen
              (index_below
                 (length (pd_date_range day_2023_01_01 day_2024_01_01)))
              n st6) as [G st7].
  simpl in *. split; [done|].
  repeat constructor; simpl; by rewrite ?pick_length.
Qed.

Lemma pd_DataFrame_sized data n :
  data <> [] ->
  Forall (fun c => length c.2 = n) data ->
  pd_DataFrame data
  = Ok (Frame_ (map fst data) (map (row_at data) (seq 0 n))).
Proof.
  intros Hne Hall. destruct data as [|[k first] rest]; [done|].
  unfold pd_DataFrame.
  assert (Hfirst : length first = n) by by inversion Hall.
  rewrite Hfirst.
  assert (Hb : forallb (fun c : string * list value =>
                          Nat.eqb (length c.2) n) ((k, first) :: rest)
               = true).
  { apply forallb_forall. intros c Hc. apply Nat.eqb_eq.
    rewrite Forall_forall in Hall. apply Hall. by apply list_elem_of_In. }
  by rewrite Hb.
Qed.

Lemma row_at_dom data i :
  dom (cells (row_at data i)) = list_to_set (map fst data).
Proof.
  unfold row_at. simpl. rewrite dom_list_to_map_L. f_equal.
  induction data as [|c data IH]; [done|]. simpl. f_equal. exact IH.
Qed.

(** C8: the table [generate_dataframe n seed] returns does not depend on
    anything but [n] and [seed] (whatever generators exist already, and in
    particular when it is called a second time after the first call, the
    outcome is the same); for a seed numpy accepts it returns a table with
    exactly [n] rows, whose columns are exactly 'A' to 'G', each row
    having a cell in each of them. *)
Theorem generate_dataframe_deterministic (n : nat) (seed : Z) :
  (forall h h' : list BitGen, (generate n seed h).1 = (generate n seed h').1)
  /\ (forall h : list BitGen,
        (generate n seed (generate n seed h).2).1 = (generate n seed h).1)
  /\ (forall st0, seed_state seed = Ok st0 ->
        forall h : list BitGen, exists df,
          (generate n seed h).1 = Ok df
          /\ length (rows df) = n
          /\ columns df = ["A"; "B"; "C"; "D"; "E"; "F"; "G"]
          /\ (forall r, r ∈ rows df ->
                dom (cells r) = list_to_set seven_fields))
  /\ (forall e, seed_state seed = Raise e ->
        forall h : list BitGen, generate n seed h = (Raise e, h)).
Proof.
  assert (Hdet : forall h h' : list BitGen,
            (generate n seed h).1 = (generate n seed h').1).
  { intros h h'. destruct (seed_state seed) as [st0|e] eqn:Hseed.
    - by rewrite !(generate_run _ _ st0).
    - by rewrite !(generate_refused _ _ e). }
  split; [exact Hdet|]. split; [intros h; apply Hdet|].
  split; [|intros e He h; by apply generate_refused].
  intros st0 Hseed h.
  destruct (columns_of_sized n st0) as [Hcols Hsized].
  assert (Hne : (columns_of n st0).1 <> []).
  { intros Hnil. rewrite Hnil in Hcols. discriminate. }
  exists (Frame_ (map fst (columns_of n st0).1)
            (map (row_at (columns_of n st0).1) (seq 0 n))).
  rewrite (generate_run _ _ st0 h Hseed). simpl.
  split; [by apply pd_DataFrame_sized|].
  split; [by rewrite length_map, length_seq|].
  split; [exact Hcols|].
  intros r Hr. apply list_elem_of_fmap in Hr as (i & -> & _).
  by rewrite row_at_dom, Hcols.
Qed.

End Generator.

Example generate_three_rows :
  (fun df => (columns df, map label (rows df)))
    <$> match (lcg_generate 3 default_seed []).1 with
        | Ok df => Some df
        | Raise _ => None
        end
  = Some (seven_fields, [VInt 0; VInt 1; VInt 2]).
Proof. vm_compute. reflexivity. Qed.

Example generate_twice :
  (lcg_generate 5 default_seed (lcg_generate 5 default_seed []).2).1
  = (lcg_generate 5 default_seed []).1.
Proof. vm_compute. reflexivity. Qed.

Example generate_no_rows :
  (fun df => (columns df, rows df))
    <$> match (lcg_generate 0 default_seed []).1 with
        | Ok df => Some df
        | Raise _ => None
        end
  = Some (seven_fields, []).
Proof. vm_compute. reflexivity. Qed.

End GenerateSpec.

(** ** [RSpace.__setitem__] and [RSpace.__getitem__] *)

Module RSpaceSpec.
Import RSpace.

Lemma bind_lift {S A B} (r : result A) (k : A -> M S B) (h : S) :
  bind (lift r) k h
  = match r with Ok a => k a h | Raise e => (Raise e, h) end.
Proof. unfold bind, lift. by destruct r. Qed.

Lemma bind_run {S A B} (m : M S A) (k : A -> M S B) (h h' : S) (a : A) :
  m h = (Ok a, h') -> bind m k h = k a h'.
Proof. intros Hm. unfold bind. by rewrite Hm. Qed.

Lemma bind_result {S A B} (m : M S A) (k : A -> M S B) (h h' : S)
    (r : result A) :
  m h = (r, h')
  -> bind m k h = match r with Ok a => k a h' | Raise e => (Raise e, h') end.
Proof. intros Hm. unfold bind. rewrite Hm. by destruct r. Qed.

Section Wrapper.

Context {PyObj RObj : Type} `{!Interop PyObj RObj}.

Lemma globalenv_get_run (env : gmap string RObj) name obj :
  env !! name = Some obj -> globalenv_get name env = (Ok obj, env).
Proof. intros Hn. unfold globalenv_get. by rewrite Hn. Qed.

Lemma set_labels_run (env : gmap string RObj) script set value_pd
    (labels : option (list string)) :
  eval_is_null script env = (Ok (is_null labels), env) ->
  (forall l, labels = Some l -> eval_list script env = (Ok l, env)) ->
  set_labels script set value_pd env
  = (match labels with
     | Some labels => set value_pd labels
     | None => Ok value_pd
     end, env).
Proof.
  intros Hnull Hlist. unfold set_labels.
  rewrite (bind_run _ _ _ _ _ Hnull).
  destruct labels as [labels|]; simpl; [|done].
  by rewrite (bind_run _ _ _ _ _ (Hlist labels eq_refl)).
Qed.

(** The read path on a bound name that is read as a symbol and whose
    value the converter accepts. *)
Lemma getitem_run (env : gmap string RObj) name obj value_py :
  env !! name = Some obj ->
  rpy2py obj = Ok value_py ->
  reads name obj env ->
  __getitem__ name env = (read_policy obj value_py, env).
Proof.
  intros Hn Hc (Hscalar & Hdim & Hnn & Hnl & Hrn & Hrl & Hcn & Hcl).
  unfold __getitem__, read_policy.
  rewrite (bind_run _ _ _ _ _ (globalenv_get_run _ _ _ Hn)).
  rewrite bind_lift, Hc.
  rewrite (bind_run _ _ _ _ _ Hscalar).
  destruct (is_scalar obj); [done|].
  destruct (is_DataFrame value_py); [done|].
  destruct (is_StrVector value_py); [done|].
  destruct (more_than_2d value_py); [done|].
  rewrite (bind_run _ _ _ _ _ Hdim).
  destruct (r_dim obj) as [d|]; simpl.
  - unfold as_table, and_then. rewrite bind_lift.
    destruct (pd_DataFrame value_py) as [value_pd|e]; [|done].
    rewrite (bind_result _ _ _ _ _
               (set_labels_run _ _ set_index value_pd _ Hrn Hrl)).
    destruct (r_rownames obj) as [rownames|].
    + destruct (set_index value_pd rownames) as [value_pd'|e]; [|done].
      apply (set_labels_run _ _ set_columns value_pd' _ Hcn Hcl).
    + apply (set_labels_run _ _ set_columns value_pd _ Hcn Hcl).
  - unfold as_series, and_then. rewrite bind_lift.
    destruct (py_dict value_py) as [data|e]; [|done].
    rewrite bind_lift.
    destruct (pd_Series data) as [value_pd|e]; [|done].
    apply (set_labels_run _ _ set_index value_pd _ Hnn Hnl).
Qed.

Lemma getitem_unbound (env : gmap string RObj) name :
  env !! name = None -> __getitem__ name env = (Raise (KeyError name), env).
Proof.
  intros Hn. unfold __getitem__, bind, globalenv_get. by rewrite Hn.
Qed.

Lemma getitem_refused (env : gmap string RObj) name obj e :
  env !! name = Some obj ->
  rpy2py obj = Raise e ->
  __getitem__ name env = (Raise e, env).
Proof.
  intros Hn Hc. unfold __getitem__.
  rewrite (bind_run _ _ _ _ _ (globalenv_get_run _ _ _ Hn)).
  by rewrite bind_lift, Hc.
Qed.





End Wrapper.

(** *** R on names *)

Lemma append_cons (x : Ascii.ascii) (a b : string) :
  String x a +:+ b = String x (a +:+ b).
Proof. reflexivity. Qed.

Lemma append_assoc' (a b c : string) : (a +:+ b) +:+ c = a +:+ (b +:+ c).
Proof.
  induction a as [|x a IH]; [reflexivity|].
  rewrite !append_cons. f_equal. exact IH.
Qed.

Lemma strip_prefix_append (p s : string) :
  strip_prefix p (p +:+ s) = Some s.
Proof.
  induction p as [|a p IH]; [reflexivity|].
  rewrite append_cons. simpl. by rewrite Ascii.eqb_refl.
Qed.

Lemma span_letters_stop (word rest : string) :
  letters word = true ->
  stops rest = true ->
  span_letters (word +:+ rest) = (word, rest).
Proof.
  intros Hw Hrest. induction word as [|x word IH].
  - change (span_letters rest = ("", rest)).
    destruct rest as [|c rest]; [done|]. simpl in *.
    by apply negb_true_iff in Hrest as ->.
  - rewrite append_cons. simpl.
    apply andb_true_iff in Hw as [Hx Hw]. by rewrite Hx, (IH Hw).
Qed.

Lemma plain_letters (name : string) : plain name = true -> letters name = true.
Proof. by destruct name. Qed.

Lemma parse_expr_symbol (name rest : string) :
  plain name = true ->
  stops rest = true ->
  strip_prefix " <- " rest = None ->
  parse_expr (name +:+ rest) = Some (Symbol name, rest).
Proof.
  intros Hp Hrest Hnone. unfold parse_expr.
  rewrite (span_letters_stop _ _ (plain_letters _ Hp) Hrest).
  by rewrite Hp, Hnone.
Qed.

Lemma parse_call_plain (f name : string) :
  plain name = true -> parse_call f (r_call f name) = Some (Symbol name).
Proof.
  intros Hp. unfold parse_call, r_call.
  rewrite <- (append_assoc' f "(" _), strip_prefix_append.
  by rewrite parse_expr_symbol by done.
Qed.

Lemma parse_scalar_test_plain (name : string) :
  plain name = true ->
  parse_scalar_test (scalar_test name) = Some (Symbol name, Symbol name).
Proof.
  intros Hp. unfold parse_scalar_test, scalar_test.
  rewrite strip_prefix_append.
  rewrite parse_expr_symbol by done.
  rewrite strip_prefix_append.
  by rewrite parse_expr_symbol by done.
Qed.

Section SmallR.

Context {RObj : Type}.
Variables (atomic : RObj -> bool) (len : RObj -> nat).
Variables (dim : RObj -> option (list nat)).
Variables (names rownames colnames : RObj -> option (list string)).
Variable number : Z -> option RObj.

Lemma r_object_run (env : gmap string RObj) name obj :
  env !! name = Some obj -> r_object name env = (Ok obj, env).
Proof. intros Hn. unfold r_object. by rewrite Hn. Qed.

(** On a name made of letters that is bound, the evaluator gives R's
    functions of the bound object and leaves the session as it was. *)
Lemma plain_reads (env : gmap string RObj) name obj :
  plain name = true ->
  env !! name = Some obj ->
  r_eval_first atomic len number (scalar_test name) env
  = (Ok (atomic obj && Nat.eqb (len obj) 1), env)
  /\ r_eval_is_null dim names rownames colnames number
       (r_call "dim" name) env
     = (Ok (is_null (dim obj)), env)
  /\ r_eval_is_null dim names rownames colnames number
       (r_call "names" name) env
     = (Ok (is_null (names obj)), env)
  /\ (forall labels, names obj = Some labels ->
        r_eval_list names rownames colnames number (r_call "names" name) env
        = (Ok labels, env))
  /\ r_eval_is_null dim names rownames colnames number
       (r_call "rownames" name) env
     = (Ok (is_null (rownames obj)), env)
  /\ (forall labels, rownames obj = Some labels ->
        r_eval_list names rownames colnames number
          (r_call "rownames" name) env
        = (Ok labels, env))
  /\ r_eval_is_null dim names rownames colnames number
       (r_call "colnames" name) env
     = (Ok (is_null (colnames obj)), env)
  /\ (forall labels, colnames obj = Some labels ->
        r_eval_list names rownames colnames number
          (r_call "colnames" name) env
        = (Ok labels, env)).
Proof.
  intros Hp Hn.
  assert (Hnames : r_attribute names rownames colnames
                     (r_call "names" name) = Some (Symbol name, names)).
  { unfold r_attribute. by rewrite (parse_call_plain "names" _ Hp). }
  assert (Hrownames : r_attribute names rownames colnames
                        (r_call "rownames" name)
                      = Some (Symbol name, rownames)).
  { unfold r_attribute.
    change (parse_call "names" (r_call "rownames" name)) with (@None r_expr).
    by rewrite (parse_call_plain "rownames" _ Hp). }
  assert (Hcolnames : r_attribute names rownames colnames
                        (r_call "colnames" name)
                      = Some (Symbol name, colnames)).
  { unfold r_attribute.
    change (parse_call "names" (r_call "colnames" name)) with (@None r_expr).
    change (parse_call "rownames" (r_call "colnames" name))
      with (@None r_expr).
    by rewrite (parse_call_plain "colnames" _ Hp). }
  assert (Hobj : r_value number (Symbol name) env = (Ok obj, env))
    by exact (r_object_run env name obj Hn).
  repeat split.
  - unfold r_eval_first. rewrite (parse_scalar_test_plain _ Hp).
    rewrite (bind_run _ _ _ _ _ Hobj).
    destruct (atomic obj); [|done]. by rewrite (bind_run _ _ _ _ _ Hobj).
  - unfold r_eval_is_null. rewrite (parse_call_plain "dim" _ Hp).
    by rewrite (bind_run _ _ _ _ _ Hobj).
  - unfold r_eval_is_null.
    change (parse_call "dim" (r_call "names" name)) with (@None r_expr).
    rewrite Hnames. by rewrite (bind_run _ _ _ _ _ Hobj).
  - intros labels Hl. unfold r_eval_list. rewrite Hnames.
    by rewrite (bind_run _ _ _ _ _ Hobj), Hl.
  - unfold r_eval_is_null.
    change (parse_call "dim" (r_call "rownames" name)) with (@None r_expr).
    rewrite Hrownames. by rewrite (bind_run _ _ _ _ _ Hobj).
  - intros labels Hl. unfold r_eval_list. rewrite Hrownames.
    by rewrite (bind_run _ _ _ _ _ Hobj), Hl.
  - unfold r_eval_is_null.
    change (parse_call "dim" (r_call "colnames" name)) with (@None r_expr).
    rewrite Hcolnames. by rewrite (bind_run _ _ _ _ _ Hobj).
  - intros labels Hl. unfold r_eval_list. rewrite Hcolnames.
    by rewrite (bind_run _ _ _ _ _ Hobj), Hl.
Qed.

End SmallR.

Lemma vectors_reads (env : gmap string rvector) name obj :
  plain name = true -> env !! name = Some obj -> reads name obj env.
Proof. intros Hp Hn. exact (plain_reads _ _ _ _ _ _ _ env name obj Hp Hn). Qed.

Lemma matrices_reads (env : gmap string rmatrix) name obj :
  plain name = true -> env !! name = Some obj -> reads name obj env.
Proof. intros Hp Hn. exact (plain_reads _ _ _ _ _ _ _ env name obj Hp Hn). Qed.




(** *** Runs on atomic vectors *)

Example getitem_unbound_name :
  (__getitem__ "x" (∅ : gmap string rvector)).1 = Raise (KeyError "x").
Proof. reflexivity. Qed.

Example string_vector_flat :
  (__getitem__ "v"
     (__setitem__ "v" (PyStrVector ["a"; "b"]) (∅ : gmap string rvector)).2).1
  = Ok (PyArray [Str "a"; Str "b"]).
Proof. vm_compute. reflexivity. Qed.





Example one_element_string_vector_read_as_scalar :
  (__getitem__ "v"
     (__setitem__ "v" (PyStrVector ["a"]) (∅ : gmap string rvector)).2).1
  = Ok (PyScalar (Str "a")).
Proof. vm_compute. reflexivity. Qed.

End RSpaceSpec.

(** ** [pvalue_to_asterisks]: order and NaN *)

Module PvalueOrder.
Import Pvalue Significance.
Local Open Scope float_scope.
#[local] Set Warnings "-inexact-float".

(** The comparison of binary64 numbers is transitive. *)
Lemma SFleb_trans x y z :
  SFleb x y = true -> SFleb y z = true -> SFleb x z = true.
Proof.
  unfold SFleb.
  destruct x as [sx|sx| |sx mx ex], y as [sy|sy| |sy my ey],
           z as [sz|sz| |sz mz ez]; simpl;
    repeat match goal with s : bool |- _ => destruct s end; simpl;
    try done.
  all: rewrite ?Pos.compare_cont_spec; simpl;
    destruct (Z.compare_spec ex ey), (Z.compare_spec ey ez),
      (Z.compare_spec ex ez);
    subst; try lia; try done; simpl;
    rewrite <- ?Pos.compare_antisym;
    destruct (Pos.compare_spec mx my), (Pos.compare_spec my mz),
      (Pos.compare_spec mx mz); subst; simpl; try lia; try done.
Qed.

Lemma leb_trans (p q t : float) :
  (p <=? q) = true -> (q <=? t) = true -> (p <=? t) = true.
Proof. rewrite !FloatAxioms.leb_spec. apply SFleb_trans. Qed.

Lemma SFcompare_refl x : x <> S754_nan -> SFcompare x x = Some Eq.
Proof.
  destruct x as [s|s| |s m e]; simpl; try done.
  - by destruct s.
  - intros _. destruct s.
    + rewrite Z.compare_refl. rewrite Pos.compare_cont_refl. done.
    + rewrite Z.compare_refl. rewrite Pos.compare_cont_refl. done.
Qed.

Lemma is_nan_leb (p t : float) : is_nan p = true -> (p <=? t) = false.
Proof.
  unfold is_nan. rewrite FloatAxioms.eqb_spec, FloatAxioms.leb_spec.
  unfold SFeqb, SFleb.
  destruct (decide (Prim2SF p = S754_nan)) as [->|Hp]; [done|].
  by rewrite (SFcompare_refl _ Hp).
Qed.

(** X1: A smaller p-value never gets fewer asterisks: [pvalue_to_asterisks]
    is antitone for the order of the floats. *)
Theorem pvalue_to_asterisks_antitone (p q : float) :
  (p <=? q) = true ->
  (stars (pvalue_to_asterisks q) <= stars (pvalue_to_asterisks p))%nat.
Proof.
  intros Hpq. unfold pvalue_to_asterisks.
  destruct (q <=? 0.0001) eqn:H4;
    [rewrite (leb_trans _ _ _ Hpq H4); simpl; lia|].
  destruct (q <=? 0.001) eqn:H3;
    [rewrite (leb_trans _ _ _ Hpq H3);
     destruct (p <=? 0.0001); simpl; lia|].
  destruct (q <=? 0.01) eqn:H2;
    [rewrite (leb_trans _ _ _ Hpq H2);
     destruct (p <=? 0.0001), (p <=? 0.001); simpl; lia|].
  destruct (q <=? 0.05) eqn:H1;
    [rewrite (leb_trans _ _ _ Hpq H1);
     destruct (p <=? 0.0001), (p <=? 0.001), (p <=? 0.01); simpl; lia|].
  simpl. lia.
Qed.

Lemma pvalue_to_asterisks_antitone_witness :
  (0.0005 <=? 0.03) = true
  /\ (stars (pvalue_to_asterisks 0.03)
      <= stars (pvalue_to_asterisks 0.0005))%nat.
Proof.
  split; [reflexivity|].
  apply (pvalue_to_asterisks_antitone 0.0005 0.03). reflexivity.
Defined.

(** X2: A p-value that is not a number compares false with every threshold
    and is labelled "ns", like a p-value above 0.05. *)
Theorem pvalue_to_asterisks_nan (p : float) :
  is_nan p = true -> pvalue_to_asterisks p = "ns"%string.
Proof.
  intros Hnan. unfold pvalue_to_asterisks.
  by rewrite !(is_nan_leb _ _ Hnan).
Qed.

Lemma pvalue_to_asterisks_nan_witness :
  is_nan nan = true /\ pvalue_to_asterisks nan = "ns"%string.
Proof.
  split; [reflexivity|].
  apply (pvalue_to_asterisks_nan nan). reflexivity.
Defined.

End PvalueOrder.

(** ** [interval2str]: reading the brackets back *)

Module IntervalMore.
Import Interval.

Section Brackets.

Context {endpoint : Type}.
Variable str_format : string -> endpoint -> endpoint -> result string.

Lemma append_inj_r (a b c : string) : a +:+ b = a +:+ c -> b = c.
Proof.
  induction a as [|ch a IH]; simpl; [done|].
  intros [= Heq]. by apply IH.
Qed.

(** X4: Two intervals whose ranges are formatted alike get the same string
    only when they have the same closedness: the brackets tell the four
    tags apart. *)
Theorem interval2str_tag_recovered (i1 i2 : Interval endpoint) fmt range s :
  str_format fmt (left i1) (right i1) = Ok range ->
  str_format fmt (left i2) (right i2) = Ok range ->
  interval2str str_format i1 fmt = Ok s ->
  interval2str str_format i2 fmt = Ok s ->
  closed i1 = closed i2.
Proof.
  intros H1 H2. unfold interval2str. rewrite H1, H2.
  destruct (String.eqb_spec (closed i1) "both") as [->|?];
    [|destruct (String.eqb_spec (closed i1) "left") as [->|?];
      [|destruct (String.eqb_spec (closed i1) "right") as [->|?];
        [|destruct (String.eqb_spec (closed i1) "neither") as [->|?];
          [|done]]]];
  (destruct (String.eqb_spec (closed i2) "both") as [->|?];
    [|destruct (String.eqb_spec (closed i2) "left") as [->|?];
      [|destruct (String.eqb_spec (closed i2) "right") as [->|?];
        [|destruct (String.eqb_spec (closed i2) "neither") as [->|?];
          [|done]]]]);
  intros [= <-]; try done; simpl; intros [= Heq];
  apply (append_inj_r range) in Heq; discriminate Heq.
Qed.

End Brackets.

Lemma interval2str_tag_recovered_witness :
  interval2str format_Z {| left := 1; right := 5; closed := "left" |}
    default_fmt = Ok "[1.0, 5.0)"
  /\ closed {| left := 1; right := 5; closed := "left" |}
     = closed {| left := 1; right := 5; closed := "left" |}.
Proof.
  split; [reflexivity|].
  apply (interval2str_tag_recovered format_Z
           {| left := 1; right := 5; closed := "left" |}
           {| left := 1; right := 5; closed := "left" |}
           default_fmt "1.0, 5.0" "[1.0, 5.0)"); reflexivity.
Defined.

End IntervalMore.

(** ** [is_true] in a chain *)

Module ChainSpec.
Import IsTrue Chain.

Lemma is_true_result {Data} (x : Data) cond message :
  is_true x cond message =
    if truthy (evaluated x cond) then Ok x
    else Raise (AssertionError message).
Proof.
  destruct cond as [v|f]; simpl; unfold py_assert; by destruct (truthy _).
Qed.

(** X5: A chain of checks returns the value it was given exactly when every
    condition holds of it; otherwise it raises with the message of the
    first check that fails, and the checks after it are not reached. *)
Theorem is_true_chain_first_failure {Data : Type} (x : Data)
    (checks : list (condition Data * string)) :
  (is_true_chain x checks = Ok x
   <-> Forall (fun check => holds x check = true) checks)
  /\ (forall y, is_true_chain x checks = Ok y -> y = x)
  /\ (forall passed cond message rest,
        checks = passed ++ (cond, message) :: rest ->
        Forall (fun check => holds x check = true) passed ->
        truthy (evaluated x cond) = false ->
        is_true_chain x checks = Raise (AssertionError message)).
Proof.
  split; [|split].
  - induction checks as [|[cond message] checks IH]; simpl.
    + split; [constructor|done].
    + rewrite is_true_result, Forall_cons. unfold holds at 1. simpl.
      destruct (truthy (evaluated x cond)).
      * rewrite IH. tauto.
      * split; [done|]. by intros [? _].
  - induction checks as [|[cond message] checks IH]; simpl; intros y.
    + congruence.
    + rewrite is_true_result.
      destruct (truthy (evaluated x cond)); [apply IH|done].
  - intros passed cond message rest -> Hpassed Hfalse.
    induction Hpassed as [|[c m] passed Hc _ IH]; simpl.
    + by rewrite is_true_result, Hfalse.
    + rewrite is_true_result. unfold holds in Hc. simpl in Hc.
      by rewrite Hc.
Qed.

Example chain_of_the_docstring :
  is_true_chain [100; 101; 102]
    [ (Plain (PyBool true), default_message);
      (Callable (fun df => PyBool (forallb (Z.ltb 50) df)), default_message);
      (Plain (PyBool true), default_message) ]
  = Ok [100; 101; 102].
Proof. reflexivity. Qed.

Example chain_stops_at_first_failure :
  is_true_chain [100; 101; 102]
    [ (Plain (PyBool true), "first");
      (Callable (fun df => PyBool (forallb (Z.ltb 500) df)), "second");
      (Plain (PyBool false), "third") ]
  = Raise (AssertionError "second").
Proof. reflexivity. Qed.

End ChainSpec.

(** ** [select]: failing queries, the indicator column, partitions *)

Module FrameMore.
Import Frame FrameExamples FrameSpec.

Section Runs.

Variable pd_eval : DataFrame -> string -> result (row -> bool).

Lemma bind_assoc {A B C} (m : M heap A) (k : A -> M heap B)
    (k' : B -> M heap C) (h : heap) :
  bind (bind m k) k' h = bind m (fun a => bind (k a) k') h.
Proof. unfold bind. by destruct (m h) as [[a|e] h1]. Qed.

Lemma bind_ext {A B} (m : M heap A) (k k' : A -> M heap B) (h : heap) :
  (forall a h', k a h' = k' a h') -> bind m k h = bind m k' h.
Proof.
  intros Hk. unfold bind. destruct (m h) as [[a|e] h1]; [apply Hk|done].
Qed.

Lemma select_loop_app dataframe indicator its1 its2 :
  forall subsets (h : heap),
    select_loop pd_eval dataframe indicator (its1 ++ its2) subsets h
    = bind (select_loop pd_eval dataframe indicator its1 subsets)
        (fun subsets1 =>
           select_loop pd_eval dataframe indicator its2 subsets1) h.
Proof.
  induction its1 as [|[que_id que_str] its1 IH]; intros subsets h.
  - reflexivity.
  - simpl. rewrite bind_assoc. apply bind_ext. intros queried h1.
    rewrite bind_assoc. apply bind_ext. intros copied h2.
    rewrite bind_assoc. apply bind_ext. intros assigned h3.
    apply IH.
Qed.

Lemma DataFrame_query_raises (h : heap) self df expr e :
  h !! self = Some df ->
  pd_eval df expr = Raise e ->
  DataFrame_query pd_eval self expr h = (Raise e, h).
Proof.
  intros Hl He. unfold DataFrame_query, bind, lift.
  by rewrite (deref_run _ _ _ Hl), He.
Qed.

(** The run of [select] when every query evaluates. *)
Lemma select_run (h : heap) dataframe df qs indicator masks :
  h !! dataframe = Some df ->
  normalized qs <> [] ->
  Forall2 (fun it mask => pd_eval df it.2 = Ok mask) (normalized qs) masks ->
  exists ext,
    select pd_eval dataframe qs indicator h
    = (Ok (length (h ++ ext)),
       (h ++ ext)
       ++ [concat_frames
             (zip_with (tagged_subset indicator df) (normalized qs) masks)]).
Proof.
  intros Hdf Hne Hev.
  destruct (select_loop_run pd_eval indicator dataframe df (normalized qs)
              masks h [] [] Hdf Hev) as (new & ext & Hrun & Hlen & Hall);
    [constructor|].
  simpl in Hall, Hrun.
  assert (Hnew : new <> []).
  { intros ->. destruct (normalized qs); [done|discriminate]. }
  exists ext.
  unfold select. unfold bind at 1, lift at 1. rewrite normalized_items.
  unfold bind at 1. rewrite Hrun. unfold bind at 1.
  by rewrite (pd_concat_run _ _ _ Hnew Hall).
Qed.

(** X6: When pandas raises on one of the queries, and evaluates those before
    it, [select] raises that exception: the queries after it are not
    evaluated and nothing is concatenated.  The input table is as it
    was. *)
Theorem select_query_error (h : heap) dataframe df qs indicator
    before que_id que_str after masks e :
  h !! dataframe = Some df ->
  normalized qs = before ++ (que_id, que_str) :: after ->
  Forall2 (fun it mask => pd_eval df it.2 = Ok mask) before masks ->
  pd_eval df que_str = Raise e ->
  (select pd_eval dataframe qs indicator h).1 = Raise e
  /\ (select pd_eval dataframe qs indicator h).2 !! dataframe = Some df.
Proof.
  intros Hdf Hits Hev Hraise.
  destruct (select_loop_run pd_eval indicator dataframe df before
              masks h [] [] Hdf Hev) as (new & ext & Hrun & _ & _);
    [constructor|].
  assert (Hloop : select_loop pd_eval dataframe indicator (normalized qs) [] h
                  = (Raise e, h ++ ext)).
  { rewrite Hits, select_loop_app. unfold bind at 1. rewrite Hrun.
    simpl. unfold bind at 1.
    rewrite (DataFrame_query_raises _ _ df _ e); [done| |done].
    by apply lookup_app_l_Some. }
  assert (Hsel : select pd_eval dataframe qs indicator h
                 = (Raise e, h ++ ext)).
  { unfold select. unfold bind at 1, lift at 1. rewrite normalized_items.
    unfold bind at 1. by rewrite Hloop. }
  rewrite Hsel. simpl.
  split; [done|]. by apply lookup_app_l_Some.
Qed.

(** X7: The indicator is an ordinary column assignment: a table that has no
    column of that name gets it as its last column, and in a table that
    has one the column stays where it is and its former values are
    replaced by the labels of the queries. *)
Theorem select_indicator_column (h : heap) dataframe df qs indicator masks :
  h !! dataframe = Some df ->
  normalized qs <> [] ->
  Forall2 (fun it mask => pd_eval df it.2 = Ok mask) (normalized qs) masks ->
  exists merged h' out,
    select pd_eval dataframe qs indicator h = (Ok merged, h')
    /\ h' !! merged = Some out
    /\ (indicator ∈ columns df -> columns out = columns df)
    /\ (indicator ∉ columns df -> columns out = columns df ++ [indicator])
    /\ (forall r', r' ∈ rows out ->
          exists que_id, que_id ∈ map fst (normalized qs)
                         /\ cells r' !! indicator = Some que_id).
Proof.
  intros Hdf Hne Hev.
  destruct (select_run h dataframe df qs indicator masks Hdf Hne Hev)
    as [ext Hrun].
  pose proof (Forall2_length _ _ _ Hev) as Hlens.
  eexists _, _, _. split; [exact Hrun|]. split; [apply lookup_fresh|].
  rewrite concat_frames_columns, concat_frames_rows by done.
  unfold with_indicator. simpl.
  split; [|split].
  - intros Hin. by rewrite decide_True.
  - intros Hnotin. by rewrite decide_False.
  - intros r' Hin.
    apply selected_elem in Hin
      as (i & que_id & que_str & mask & r & Hi & _ & _ & _ & ->).
    exists que_id. split.
    + apply (list_elem_of_fmap_2 fst) with (x := (que_id, que_str)).
      by apply list_elem_of_lookup_2 in Hi.
    + simpl. apply lookup_insert_eq.
Qed.

(** *** Queries that partition the table *)

Lemma occurrences_cons l r rs :
  occurrences l (r :: rs)
  = ((if has_label l r then 1 else 0) + occurrences l rs)%nat.
Proof. unfold occurrences. simpl. by destruct (has_label l r). Qed.

Lemma sum_list_step (x : nat) (l : list nat) :
  sum_list (x :: l) = (x + sum_list l)%nat.
Proof. reflexivity. Qed.

Lemma occurrences_filter_cons l (mask : row -> bool) r rs :
  occurrences l (List.filter mask (r :: rs))
  = ((if mask r then if has_label l r then 1 else 0 else 0)
     + occurrences l (List.filter mask rs))%nat.
Proof.
  simpl. destruct (mask r); [|done].
  rewrite occurrences_cons. by destruct (has_label l r).
Qed.

Lemma sum_occurrences_cons l r rs (masks : list (row -> bool)) :
  sum_list (map (fun mask => occurrences l (List.filter mask (r :: rs))) masks)
  = ((if has_label l r then accepted_by masks r else 0)
     + sum_list (map (fun mask => occurrences l (List.filter mask rs)) masks))%nat.
Proof.
  unfold accepted_by.
  induction masks as [|mask masks IH].
  - simpl. by destruct (has_label l r).
  - rewrite !map_cons, !sum_list_step, IH, occurrences_filter_cons.
    cbn [List.filter]. destruct (mask r), (has_label l r); simpl; lia.
Qed.

Lemma sum_occurrences_partition l rs (masks : list (row -> bool)) :
  Forall (fun r => accepted_by masks r = 1%nat) rs ->
  sum_list (map (fun mask => occurrences l (List.filter mask rs)) masks)
  = occurrences l rs.
Proof.
  induction 1 as [|r rs Hr _ IH].
  - induction masks as [|mask masks IHm]; [done|].
    by rewrite map_cons, sum_list_step, IHm.
  - rewrite sum_occurrences_cons, IH, occurrences_cons, Hr. done.
Qed.

Lemma sum_lengths_cons r rs (masks : list (row -> bool)) :
  sum_list (map (fun mask : row -> bool =>
                   length (List.filter mask (r :: rs))) masks)
  = (accepted_by masks r
     + sum_list (map (fun mask : row -> bool =>
                        length (List.filter mask rs)) masks))%nat.
Proof.
  unfold accepted_by.
  induction masks as [|mask masks IH]; [done|].
  rewrite !map_cons, !sum_list_step, IH.
  cbn [List.filter]. destruct (mask r); simpl; lia.
Qed.

Lemma selected_length indicator df its masks :
  length its = length masks ->
  length (selected indicator df its masks)
  = sum_list (map (fun mask : row -> bool =>
                     length (List.filter mask (rows df))) masks).
Proof.
  unfold selected. revert masks.
  induction its as [|it its IH]; intros [|mask masks] Hlen; simpl in *;
    try done.
  rewrite length_app. unfold subset_rows at 1. rewrite length_map.
  f_equal. apply IH. lia.
Qed.

(** X8: When every row of the table satisfies exactly one of the queries, the
    result has every row of the table exactly once: as many rows as the
    table, and each index label as often as in the table. *)
Theorem select_partition (h : heap) dataframe df qs indicator masks :
  h !! dataframe = Some df ->
  normalized qs <> [] ->
  Forall2 (fun it mask => pd_eval df it.2 = Ok mask) (normalized qs) masks ->
  Forall (fun r => accepted_by masks r = 1%nat) (rows df) ->
  exists merged h' out,
    select pd_eval dataframe qs indicator h = (Ok merged, h')
    /\ h' !! merged = Some out
    /\ length (rows out) = length (rows df)
    /\ (forall l, occurrences l (rows out) = occurrences l (rows df)).
Proof.
  intros Hdf Hne Hev Hpart.
  destruct (select_run h dataframe df qs indicator masks Hdf Hne Hev)
    as [ext Hrun].
  pose proof (Forall2_length _ _ _ Hev) as Hlens.
  eexists _, _, _. split; [exact Hrun|]. split; [apply lookup_fresh|].
  rewrite concat_frames_rows. split.
  - rewrite selected_length by done.
    clear -Hpart. induction Hpart as [|r rs Hr _ IH].
    + induction masks as [|mask masks IHm]; [done|].
      by rewrite map_cons, sum_list_step, IHm.
    + rewrite sum_lengths_cons, IH, Hr. done.
  - intros l. rewrite occurrences_selected by done.
    by apply sum_occurrences_partition.
Qed.

End Runs.

Lemma select_query_error_witness :
  ([range_frame] : heap) !! 0%nat = Some range_frame
  /\ eval_col range_frame "col >> 1"
     = Raise (LibraryError "unsupported expression")
  /\ (select eval_col 0%nat (QList ["col > 1"; "col >> 1"; "col <= 1"])
        default_indicator [range_frame]).1
     = Raise (LibraryError "unsupported expression").
Proof.
  split; [reflexivity|]. split; [reflexivity|].
  apply (select_query_error eval_col [range_frame] 0%nat range_frame
           (QList ["col > 1"; "col >> 1"; "col <= 1"]) default_indicator
           [(VInt 0, "col > 1")] (VInt 1) "col >> 1" [(VInt 2, "col <= 1")]
           [fun r => 1 <? int_cell "col" r]).
  - reflexivity.
  - reflexivity.
  - repeat constructor.
  - reflexivity.
Defined.

Lemma select_indicator_column_witness :
  ([tagged_frame] : heap) !! 0%nat = Some tagged_frame
  /\ default_indicator ∈ columns tagged_frame
  /\ exists merged h' out,
      select eval_col 0%nat (QStr "col > 1") default_indicator [tagged_frame]
      = (Ok merged, h')
      /\ h' !! merged = Some out
      /\ columns out = ["col"; "query"]
      /\ (forall r', r' ∈ rows out ->
            cells r' !! default_indicator = Some (VStr "")).
Proof.
  assert (Hin : default_indicator ∈ columns tagged_frame)
    by (apply list_elem_of_In; simpl; tauto).
  split; [reflexivity|]. split; [exact Hin|].
  destruct (select_indicator_column eval_col [tagged_frame] 0%nat tagged_frame
              (QStr "col > 1") default_indicator
              [fun r => 1 <? int_cell "col" r])
    as (merged & h' & out & Hsel & Hout & Hcols & _ & Hcells).
  - reflexivity.
  - discriminate.
  - repeat constructor.
  - exists merged, h', out. split; [exact Hsel|]. split; [exact Hout|].
    split; [exact (Hcols Hin)|].
    intros r' Hr'. destruct (Hcells r' Hr') as (que_id & Hid & Hcell).
    simpl in Hid. apply list_elem_of_singleton in Hid. by subst.
Defined.

Lemma select_partition_witness :
  ([range_frame] : heap) !! 0%nat = Some range_frame
  /\ Forall (fun r =>
               accepted_by [ (fun r => 1 <? int_cell "col" r);
                             (fun r => int_cell "col" r <=? 1) ] r = 1%nat)
       (rows range_frame)
  /\ exists merged h' out,
      select eval_col 0%nat
        (QDict [(VStr "a", "col > 1"); (VStr "b", "col <= 1")])
        default_indicator [range_frame] = (Ok merged, h')
      /\ h' !! merged = Some out
      /\ length (rows out) = 4%nat.
Proof.
  assert (Hpart : Forall (fun r =>
               accepted_by [ (fun r => 1 <? int_cell "col" r);
                             (fun r => int_cell "col" r <=? 1) ] r = 1%nat)
       (rows range_frame)) by (repeat constructor).
  split; [reflexivity|]. split; [exact Hpart|].
  destruct (select_partition eval_col [range_frame] 0%nat range_frame
              (QDict [(VStr "a", "col > 1"); (VStr "b", "col <= 1")])
              default_indicator
              [ (fun r => 1 <? int_cell "col" r);
                (fun r => int_cell "col" r <=? 1) ])
    as (merged & h' & out & Hsel & Hout & Hlen & _).
  - reflexivity.
  - discriminate.
  - repeat constructor.
  - exact Hpart.
  - exists merged, h', out. by repeat split.
Defined.

End FrameMore.

(** ** [get_logger]: calls composed *)

Module LoggingMore.
Import Logging LoggingSpec.

(** Two registries with the same loggers are the same registry. *)
Lemma registry_ext (reg1 reg2 : registry) :
  (forall l, find l reg1 = find l reg2) -> reg1 = reg2.
Proof.
  intros Hfind. destruct reg1 as [root1 dict1], reg2 as [root2 dict2].
  f_equal.
  - specialize (Hfind Root). simpl in Hfind. congruence.
  - apply map_eq. intros n. exact (Hfind (Named n)).
Qed.

Lemma current_other name name' lvl reg :
  logger_of name <> logger_of name' ->
  current name (get_logger name' lvl reg).2 = current name reg.
Proof.
  intros Hne. unfold current.
  destruct (get_logger_run name' lvl reg) as (_ & _ & Hothers).
  by rewrite Hothers.
Qed.

(** X9: Calling [get_logger] again on a name is the same as calling it once
    with the last level: handlers do not pile up, and only the level of
    the last call remains. *)
Theorem get_logger_last_call_wins (name : option string)
    (lvl1 lvl2 : option Z) (reg : registry) :
  get_logger name lvl2 (get_logger name lvl1 reg).2
  = get_logger name lvl2 reg.
Proof.
  destruct (get_logger_run name lvl2 (get_logger name lvl1 reg).2)
    as (Hid2 & Hfind2 & Hothers2).
  destruct (get_logger_run name lvl1 reg) as (_ & _ & Hothers1).
  destruct (get_logger_run name lvl2 reg) as (Hid & Hfind & Hothers).
  apply injective_projections; [congruence|].
  apply registry_ext. intros l.
  destruct (decide (l = logger_of name)) as [->|Hne].
  - by rewrite Hfind2, Hfind, current_after, configured_again.
  - by rewrite Hothers2, Hothers1, Hothers.
Qed.

(** X10: Calls on names of different loggers do not interfere: in either
    order they leave the same registry. *)
Theorem get_logger_commutes (name1 name2 : option string)
    (lvl1 lvl2 : option Z) (reg : registry) :
  logger_of name1 <> logger_of name2 ->
  (get_logger name1 lvl1 (get_logger name2 lvl2 reg).2).2
  = (get_logger name2 lvl2 (get_logger name1 lvl1 reg).2).2.
Proof.
  intros Hne.
  destruct (get_logger_run name1 lvl1 (get_logger name2 lvl2 reg).2)
    as (_ & Hfind12 & Hothers12).
  destruct (get_logger_run name2 lvl2 (get_logger name1 lvl1 reg).2)
    as (_ & Hfind21 & Hothers21).
  destruct (get_logger_run name1 lvl1 reg) as (_ & Hfind1 & Hothers1).
  destruct (get_logger_run name2 lvl2 reg) as (_ & Hfind2 & Hothers2).
  apply registry_ext. intros l.
  destruct (decide (l = logger_of name1)) as [->|Hne1].
  - rewrite Hfind12, (Hothers21 _ Hne), Hfind1.
    by rewrite current_other.
  - rewrite (Hothers12 _ Hne1).
    destruct (decide (l = logger_of name2)) as [->|Hne2].
    + rewrite Hfind21, Hfind2. by rewrite current_other.
    + by rewrite (Hothers21 _ Hne2), (Hothers2 _ Hne2), (Hothers1 _ Hne1).
Qed.

Lemma get_logger_commutes_witness :
  logger_of (Some "app") <> logger_of None
  /\ (get_logger (Some "app") None (get_logger None (Some DEBUG) initial).2).2
     = (get_logger None (Some DEBUG) (get_logger (Some "app") None initial).2).2.
Proof.
  assert (Hne : logger_of (Some "app") <> logger_of None) by discriminate.
  split; [exact Hne|].
  exact (get_logger_commutes (Some "app") None None (Some DEBUG) initial Hne).
Defined.

(** X11: With no name it is the root logger that is returned and configured,
    as the docstring says: no named logger is created or changed. *)
Theorem get_logger_root (lvl : option Z) (reg : registry) :
  let out := get_logger None lvl reg in
  out.1 = Root
  /\ loggerDict out.2 = loggerDict reg
  /\ root out.2 = configured lvl (root reg)
  /\ (forall n, find (Named n) out.2 = find (Named n) reg).
Proof.
  unfold get_logger, getLogger. simpl. unfold configured, attach.
  destruct (handlers (root reg)) as [|hd tl] eqn:Hh; simpl; rewrite ?Hh;
    by repeat split.
Qed.

End LoggingMore.

(** ** [generate_dataframe]: the generators, the index, the values *)

Module GenerateMore.
Import Frame Generate GenerateSpec.

Section Generator.

Variable BitGen : Type.
Variable seed_state : Z -> result BitGen.
Variable normal uniform exponential : BitGen -> value * BitGen.
Variable integers : Z -> Z -> BitGen -> value * BitGen.
Variable index_below : nat -> BitGen -> nat * BitGen.

Local Abbreviation generate :=
  (generate_dataframe BitGen seed_state normal uniform exponential
     integers index_below).
Local Abbreviation columns_of :=
  (sampled BitGen normal uniform exponential integers index_below).

(** X12: [generate_dataframe] draws from a generator of its own: every
    generator that exists when it is called is left in the state it was
    in, and at most one generator is created. *)
Theorem generate_dataframe_own_generator (n : nat) (seed : Z)
    (h : list BitGen) :
  let out :=
    generate_dataframe BitGen seed_state normal uniform exponential integers
      index_below n seed h in
  (forall l st, h !! l = Some st -> out.2 !! l = Some st)
  /\ (length out.2 <= S (length h))%nat.
Proof.
  intros out. subst out.
  destruct (seed_state seed) as [st0|e] eqn:Hseed.
  - rewrite (generate_run BitGen seed_state normal uniform exponential
               integers index_below n seed st0 h Hseed). simpl.
    split.
    + intros l st Hl. by apply lookup_app_l_Some.
    + rewrite length_app. simpl. lia.
  - rewrite (generate_refused BitGen seed_state normal uniform exponential
               integers index_below n seed e h Hseed). simpl.
    split; [done|lia].
Qed.

(** X13: The rows of the table are labelled 0, 1, ..., n-1, in this order. *)
Theorem generate_dataframe_index (n : nat) (seed : Z) st0 (h : list BitGen) :
  seed_state seed = Ok st0 ->
  exists df,
    (generate_dataframe BitGen seed_state normal uniform exponential integers
       index_below n seed h).1 = Ok df
    /\ map label (rows df) = map (fun i => VInt (Z.of_nat i)) (seq 0 n).
Proof.
  intros Hseed.
  destruct (columns_of_sized BitGen normal uniform exponential integers
              index_below n st0) as [Hcols Hsized].
  assert (Hne : (columns_of n st0).1 <> []).
  { intros Hnil. rewrite Hnil in Hcols. discriminate. }
  eexists. rewrite (generate_run BitGen seed_state normal uniform
                      exponential integers index_below n seed st0 h Hseed).
  simpl. split; [by apply pd_DataFrame_sized|].
  simpl. rewrite map_map. reflexivity.
Qed.

(** *** The values of the three columns drawn by [choice] *)

Hypothesis index_in_range :
  forall bound st, (0 < bound)%nat -> ((index_below bound st).1 < bound)%nat.

Lemma draws_in_range bound n st :
  (0 < bound)%nat ->
  Forall (fun i => (i < bound)%nat)
    (draws BitGen (index_below bound) n st).1.
Proof.
  intros Hb. revert st. induction n as [|n IH]; intros st; [constructor|].
  simpl. pose proof (index_in_range bound st Hb) as Hi.
  destruct (index_below bound st) as [i st1]. specialize (IH st1).
  destruct (draws BitGen (index_below bound) n st1) as [idx st2].
  simpl in *. by constructor.
Qed.

Lemma pick_in_range a idx :
  Forall (fun i => (i < length a)%nat) idx ->
  Forall (fun v => v ∈ a) (pick a idx).
Proof.
  unfold pick. induction 1 as [|i idx Hi _ IH]; simpl; constructor; [|done].
  apply list_elem_of_In, nth_In, Hi.
Qed.

Lemma nth_Forall {A} (P : A -> Prop) (l : list A) (i : nat) (d : A) :
  Forall P l -> (i < length l)%nat -> P (nth i l d).
Proof.
  intros Hall Hi. rewrite Forall_forall in Hall.
  apply Hall, list_elem_of_In, nth_In, Hi.
Qed.

(** X14: When numpy's index draws stay below their bound, every cell of column
    'E' is one of the seven ingredients, every cell of 'F' one of 'str_0'
    to 'str_9', and every cell of 'G' a day from 2023-01-01 to
    2024-01-01. *)
Theorem generate_dataframe_choices (n : nat) (seed : Z) st0 (h : list BitGen) :
  seed_state seed = Ok st0 ->
  exists df,
    (generate n seed h).1 = Ok df
    /\ forall r, r ∈ rows df ->
         (exists e, cells r !! "E" = Some e /\ e ∈ ingredients)
         /\ (exists f, cells r !! "F" = Some f
                       /\ f ∈ map str_i (seq 0 10))
         /\ (exists g, cells r !! "G" = Some g
                       /\ g ∈ pd_date_range day_2023_01_01 day_2024_01_01).
Proof.
  intros Hseed.
  destruct (columns_of_sized BitGen normal uniform exponential integers
              index_below n st0) as [Hcols Hsized].
  assert (Hne : (columns_of n st0).1 <> []).
  { intros Hnil. rewrite Hnil in Hcols. discriminate. }
  eexists. rewrite (generate_run BitGen seed_state normal uniform
                      exponential integers index_below n seed st0 h Hseed).
  simpl. split; [by apply pd_DataFrame_sized|].
  simpl. intros r Hr. apply list_elem_of_fmap in Hr as (i & -> & Hi).
  apply elem_of_seq in Hi as [_ Hi]. simpl in Hi.
  revert Hsized. unfold sampled, row_at.
  destruct (draws BitGen normal n st0) as [A st1].
  destruct (draws BitGen uniform n st1) as [B st2].
  destruct (draws BitGen (integers 0 100) n st2) as [C st3].
  destruct (draws BitGen exponential n st3) as [D st4].
  pose proof (draws_in_range (length ingredients) n st4) as HE.
  destruct (draws BitGen (index_below (length ingredients)) n st4)
    as [E st5].
  pose proof (draws_in_range (length (map str_i (seq 0 10))) n st5) as HF.
  destruct (draws BitGen (index_below (length (map str_i (seq 0 10)))) n st5)
    as [F st6].
  pose proof (draws_in_range
                (length (pd_date_range day_2023_01_01 day_2024_01_01))
                n st6) as HG.
  destruct (draws BitGen
              (index_below
                 (length (pd_date_range day_2023_01_01 day_2024_01_01)))
              n st6) as [G st7].
  cbn [fst snd] in *. intros Hsized.
  repeat (apply Forall_cons in Hsized as [? Hsized]). cbn [fst snd] in *.
  cbn [map list_to_map foldr fst snd cells].
  split; [|split].
  - eexists. split.
    + rewrite !lookup_insert_ne by done. apply lookup_insert_eq.
    + apply nth_Forall; [|lia].
      apply pick_in_range, HE. simpl. lia.
  - eexists. split.
    + rewrite !lookup_insert_ne by done. apply lookup_insert_eq.
    + apply nth_Forall; [|lia].
      apply pick_in_range, HF. simpl. lia.
  - eexists. split.
    + rewrite !lookup_insert_ne by done. apply lookup_insert_eq.
    + apply nth_Forall; [|lia].
      apply pick_in_range, HG. rewrite date_range_length. lia.
Qed.

End Generator.

Lemma lcg_index_in_range bound st :
  (0 < bound)%nat -> ((lcg_index bound st).1 < bound)%nat.
Proof.
  intros Hb. unfold lcg_index. simpl.
  pose proof (Z.mod_pos_bound (lcg_next st) (Z.of_nat bound)). lia.
Qed.

Lemma generate_dataframe_index_witness :
  lcg_seed default_seed = Ok 42
  /\ exists df,
       (lcg_generate 3 default_seed []).1 = Ok df
       /\ map label (rows df) = [VInt 0; VInt 1; VInt 2].
Proof.
  split; [reflexivity|].
  exact (generate_dataframe_index Z lcg_seed lcg_value lcg_value lcg_value
           lcg_integers lcg_index 3 default_seed 42 [] eq_refl).
Defined.

Lemma generate_dataframe_choices_witness :
  lcg_seed default_seed = Ok 42
  /\ exists df,
       (lcg_generate 2 default_seed []).1 = Ok df
       /\ forall r, r ∈ rows df ->
            exists e, cells r !! "E" = Some e /\ e ∈ ingredients.
Proof.
  split; [reflexivity|].
  destruct (generate_dataframe_choices Z lcg_seed lcg_value lcg_value
              lcg_value lcg_integers lcg_index lcg_index_in_range
              2 default_seed 42 [] eq_refl) as (df & Hdf & Hcells).
  exists df. split; [exact Hdf|].
  intros r Hr. by destruct (Hcells r Hr) as (HE & _).
Defined.

End GenerateMore.

(** ** [RSpace]: errors, and writes composed with reads *)

Module RSpaceMore.
Import RSpace RSpaceWrites RSpaceSpec.

Section Wrapper.

Context {PyObj RObj : Type} `{!Interop PyObj RObj}.

Lemma setitem_cases (env : gmap string RObj) name value :
  __setitem__ name value env
  = match py2rpy (r_input value) with
    | Ok value_r => (Ok tt, <[name := value_r]> env)
    | Raise e => (Raise e, env)
    end.
Proof.
  unfold __setitem__, r_input, bind, lift, r_assign.
  by destruct (py2rpy _).
Qed.

(** X16: Reading a name that is not bound in the session raises [KeyError];
    reading a name whose object the converter refuses raises the
    converter's exception, before any test of the read policy. *)
Theorem getitem_errors (env : gmap string RObj) (name : string) :
  (env !! name = None ->
     __getitem__ name env = (Raise (KeyError name), env))
  /\ (forall obj e, env !! name = Some obj -> rpy2py obj = Raise e ->
        __getitem__ name env = (Raise e, env)).
Proof.
  split; [apply getitem_unbound|]. intros obj e. apply getitem_refused.
Qed.

(** X17: A value the converter refuses is not assigned: [__setitem__] raises
    the converter's exception and the session, also the former binding of
    the name, is as it was. *)
Theorem setitem_refused (env : gmap string RObj) name value e :
  py2rpy (r_input value) = Raise e ->
  __setitem__ name value env = (Raise e, env).
Proof. intros Hc. by rewrite setitem_cases, Hc. Qed.

(** X18: Writing under one name does not change what is read under another
    name, when that other name is read as a symbol before the write and
    after it. *)
Theorem setitem_other_names (env : gmap string RObj) name other value :
  other <> name ->
  (forall obj, env !! other = Some obj ->
     reads other obj env /\ reads other obj (__setitem__ name value env).2) ->
  (__getitem__ other (__setitem__ name value env).2).1
  = (__getitem__ other env).1.
Proof.
  intros Hne Hreads.
  assert (Hsame : (__setitem__ name value env).2 !! other = env !! other).
  { rewrite setitem_cases.
    destruct (py2rpy (r_input value)) as [value_r|e]; simpl; [|done].
    by apply lookup_insert_ne. }
  destruct (env !! other) as [obj|] eqn:Hn.
  - destruct (Hreads obj eq_refl) as [Hbefore Hafter].
    destruct (rpy2py obj) as [value_py|e] eqn:Hc.
    + by rewrite (getitem_run _ _ _ _ Hsame Hc Hafter),
        (getitem_run _ _ _ _ Hn Hc Hbefore).
    + by rewrite (getitem_refused _ _ _ _ Hsame Hc),
        (getitem_refused _ _ _ _ Hn Hc).
  - by rewrite (getitem_unbound _ _ Hsame), (getitem_unbound _ _ Hn).
Qed.

(** X19: A second write under a name replaces the first: the session is the
    one the second write alone would give. *)
Theorem setitem_last_write_wins (env : gmap string RObj) name value1 value2
    value_r :
  py2rpy (r_input value2) = Ok value_r ->
  (__setitem__ name value2 (__setitem__ name value1 env).2).2
  = (__setitem__ name value2 env).2.
Proof.
  intros Hc. rewrite !(setitem_cases _ name value2), Hc. simpl.
  rewrite setitem_cases.
  destruct (py2rpy (r_input value1)) as [r1|e]; simpl; [|done].
  apply insert_insert_eq.
Qed.

End Wrapper.

Lemma setitem_refused_witness :
  py2rpy (r_input (PyArray [Num 1; Num 2]))
  = Raise (LibraryError "outside the modelled conversion layer")
  /\ __setitem__ "x" (PyArray [Num 1; Num 2])
       ({[ "x" := {| values := [Num 5]; names := None |} ]}
          : gmap string rvector)
     = (Raise (LibraryError "outside the modelled conversion layer"),
        {[ "x" := {| values := [Num 5]; names := None |} ]}).
Proof.
  assert (Hc : py2rpy (r_input (PyArray [Num 1; Num 2]))
               = Raise (LibraryError "outside the modelled conversion layer"))
    by reflexivity.
  split; [exact Hc|].
  exact (setitem_refused _ "x" (PyArray [Num 1; Num 2]) _ Hc).
Defined.

Lemma setitem_other_names_witness :
  let env : gmap string rvector :=
    {[ "y" := {| values := [Num 5]; names := None |} ]} in
  "y" <> "x"
  /\ (forall obj, env !! "y" = Some obj ->
        reads "y" obj env
        /\ reads "y" obj (__setitem__ "x" (PyScalar (Num 7)) env).2)
  /\ (__getitem__ "y" (__setitem__ "x" (PyScalar (Num 7)) env).2).1
     = Ok (PyScalar (Num 5))
  /\ (__getitem__ "y" env).1 = Ok (PyScalar (Num 5)).
Proof.
  intros env.
  assert (Hne : "y" <> "x") by discriminate.
  assert (Hreads : forall obj, env !! "y" = Some obj ->
            reads "y" obj env
            /\ reads "y" obj (__setitem__ "x" (PyScalar (Num 7)) env).2).
  { intros obj Hobj. split; apply vectors_reads; try reflexivity.
    - exact Hobj.
    - vm_compute. vm_compute in Hobj. exact Hobj. }
  assert (Hread : (__getitem__ "y" env).1 = Ok (PyScalar (Num 5)))
    by (vm_compute; reflexivity).
  split; [exact Hne|]. split; [exact Hreads|]. split; [|exact Hread].
  rewrite (setitem_other_names env "x" "y" (PyScalar (Num 7)) Hne Hreads).
  exact Hread.
Defined.

Lemma setitem_last_write_wins_witness :
  py2rpy (r_input (PyScalar (Num 2)))
  = Ok {| values := [Num 2]; names := None |}
  /\ (__setitem__ "x" (PyScalar (Num 2))
        (__setitem__ "x" (PyScalar (Num 1)) (∅ : gmap string rvector)).2).2
     = (__setitem__ "x" (PyScalar (Num 2)) (∅ : gmap string rvector)).2.
Proof.
  assert (Hc : py2rpy (r_input (PyScalar (Num 2)))
               = Ok {| values := [Num 2]; names := None |}) by reflexivity.
  split; [exact Hc|].
  exact (setitem_last_write_wins _ "x" (PyScalar (Num 1)) (PyScalar (Num 2))
           _ Hc).
Defined.

End RSpaceMore.

(** ** [RSpace.as_lines] *)

Module LinesSpec.
Import Lines.

Lemma append_assoc (a b c : string) : (a +:+ b) +:+ c = a +:+ (b +:+ c).
Proof.
  induction a as [|ch a IH]; [done|].
  change (String ch ((a +:+ b) +:+ c) = String ch (a +:+ (b +:+ c))).
  by rewrite IH.
Qed.

Lemma str_split_nonempty c s : str_split c s <> [].
Proof.
  destruct s as [|a rest]; simpl; [done|].
  destruct (Ascii.eqb a c); [done|]. by destruct (str_split c rest).
Qed.

Lemma str_split_no_separator c s :
  has_char c s = false -> str_split c s = [s].
Proof.
  induction s as [|a rest IH]; simpl; [done|].
  intros Hno. apply orb_false_iff in Hno as [Ha Hrest].
  by rewrite Ha, (IH Hrest).
Qed.

Lemma str_split_separator c s t :
  has_char c s = false ->
  str_split c (s +:+ String c t) = s :: str_split c t.
Proof.
  induction s as [|a rest IH]; simpl.
  - intros _. by rewrite Ascii.eqb_refl.
  - intros Hno. apply orb_false_iff in Hno as [Ha Hrest].
    by rewrite Ha, (IH Hrest).
Qed.

Lemma as_lines_cons s strings :
  strings <> [] ->
  as_lines (s :: strings) = s +:+ String newline_char (as_lines strings).
Proof. by destruct strings. Qed.

(** X20: Splitting the text [as_lines] builds at the newlines gives the
    strings back, when there is at least one string and none of them
    has a newline in it. *)
Theorem as_lines_split (strings : list string) :
  strings <> [] ->
  Forall (fun s => has_char newline_char s = false) strings ->
  str_split newline_char (as_lines strings) = strings.
Proof.
  intros Hne Hall. induction Hall as [|s rest Hs Hrest IH]; [done|].
  destruct rest as [|s' rest'].
  - simpl. by apply str_split_no_separator.
  - rewrite as_lines_cons by done.
    rewrite (str_split_separator _ _ _ Hs). f_equal. by apply IH.
Qed.

Lemma as_lines_split_witness :
  ["x <- 1"; ""; "print(x)"] <> []
  /\ str_split newline_char (as_lines ["x <- 1"; ""; "print(x)"])
     = ["x <- 1"; ""; "print(x)"].
Proof.
  split; [discriminate|].
  apply (as_lines_split ["x <- 1"; ""; "print(x)"]); [discriminate|].
  repeat constructor.
Defined.

(** X21: [as_lines] undoes the split at newlines of any text. *)
Theorem as_lines_of_split (text : string) :
  as_lines (str_split newline_char text) = text.
Proof.
  induction text as [|a rest IH]; [done|]. simpl.
  pose proof (str_split_nonempty newline_char rest) as Hne.
  destruct (Ascii.eqb a newline_char) eqn:Ha.
  - apply Ascii.eqb_eq in Ha as ->.
    rewrite as_lines_cons by done. simpl. by rewrite IH.
  - destruct (str_split newline_char rest) as [|first others]; [done|].
    destruct others as [|second others].
    + change (as_lines [first]) with first in IH. by subst.
    + rewrite as_lines_cons by done. rewrite as_lines_cons in IH by done.
      by rewrite <- IH.
Qed.

(** X22: No string gives the empty text and one string gives that string (no
    newline is added at the end); the lines of two lists of strings put
    end to end are the lines of the first, a newline, and the lines of
    the second. *)
Theorem as_lines_app :
  as_lines [] = ""
  /\ (forall s, as_lines [s] = s)
  /\ (forall strings1 strings2,
        strings1 <> [] -> strings2 <> [] ->
        as_lines (strings1 ++ strings2)
        = as_lines strings1 +:+ newline +:+ as_lines strings2).
Proof.
  split; [done|]. split; [done|].
  intros strings1 strings2 Hne1 Hne2.
  induction strings1 as [|s rest IH]; [done|].
  destruct rest as [|s' rest'].
  - simpl app. by rewrite as_lines_cons.
  - change ((s :: s' :: rest') ++ strings2)
      with (s :: ((s' :: rest') ++ strings2)).
    rewrite !as_lines_cons by done. rewrite IH by done.
    rewrite append_assoc. reflexivity.
Qed.

End LinesSpec.

(** ** [RSpace.obj2cat] *)

Module CategoriesSpec.
Import Categories.

Section Astype.

Context `{!Astype}.

Lemma column_unique (l : list Series) (s : Series) :
  NoDup (map name l) -> s ∈ l ->
  List.filter (fun s' => String.eqb (name s') (name s)) l = [s].
Proof.
  induction l as [|a l IH]; intros Hnd Hin; [by apply elem_of_nil in Hin|].
  simpl in Hnd. apply NoDup_cons in Hnd as [Ha Hnd].
  assert (Hnone : forall s0, name s0 ∉ map name l ->
            List.filter (fun s' => String.eqb (name s') (name s0)) l = []).
  { intros s0 Hs0. clear -Hs0. induction l as [|b l IHl]; [done|].
    simpl in *. apply not_elem_of_cons in Hs0 as [Hne Hs0].
    destruct (String.eqb_spec (name b) (name s0)); [congruence|].
    by apply IHl. }
  apply elem_of_cons in Hin as [->|Hin]; simpl.
  - rewrite String.eqb_refl. by rewrite Hnone.
  - destruct (String.eqb_spec (name a) (name s)) as [Heq|Hne].
    + exfalso. apply Ha. rewrite Heq. by apply list_elem_of_fmap_2.
    + by apply IH.
Qed.

Lemma to_category_name s : name (to_category s) = name s.
Proof. unfold to_category. by destruct (is_object (dt s)). Qed.

Lemma to_category_again s : to_category (to_category s) = to_category s.
Proof. destruct s as [n d v]. by destruct d. Qed.

Lemma convert_named_names col l :
  map name (map (convert_named col) l) = map name l.
Proof.
  rewrite map_map. apply map_ext. intros s. unfold convert_named.
  destruct (String.eqb (name s) col); [apply to_category_name|done].
Qed.

Lemma set_series_unique (l : list Series) (s : Series) :
  NoDup (map name l) -> s ∈ l ->
  map (fun s' => if String.eqb (name s') (name s)
                 then astype_category s else s') l
  = map (fun s' => if String.eqb (name s') (name s)
                   then astype_category s' else s') l.
Proof.
  intros Hnd Hin. apply map_ext_in. intros s' Hs'.
  destruct (String.eqb_spec (name s') (name s)) as [Heq|]; [|done].
  f_equal. apply list_elem_of_In in Hs'.
  pose proof (column_unique l s Hnd Hin) as Hs.
  assert (Hin' : In s' (List.filter
                   (fun s0 => String.eqb (name s0) (name s)) l)).
  { apply filter_In. split; [by apply list_elem_of_In|].
    by apply String.eqb_eq. }
  rewrite Hs in Hin'. destruct Hin' as [->|[]]. done.
Qed.

Lemma obj2cat_step (h : theap) converted df s :
  h !! converted = Some df ->
  NoDup (map name (series df)) ->
  s ∈ series df ->
  obj2cat_body converted (name s) h
  = (Ok tt,
     <[converted :=
         {| index := index df;
            series := map (convert_named (name s)) (series df) |}]> h).
Proof.
  intros Hc Hnd Hin.
  assert (Hget : TypedFrame_getitem converted (name s) h = (Ok s, h)).
  { unfold TypedFrame_getitem, bind, tderef, lift, column.
    by rewrite Hc, (column_unique _ _ Hnd Hin). }
  unfold obj2cat_body. unfold bind at 1. rewrite Hget.
  destruct (is_object (dt s)) eqn:Hobj.
  - unfold bind at 1. rewrite Hget.
    unfold TypedFrame_setitem, bind, tderef, tstore. rewrite Hc.
    f_equal. f_equal. unfold set_series. f_equal.
    rewrite (set_series_unique _ _ Hnd Hin).
    apply map_ext_in. intros s' Hs'. unfold convert_named, to_category.
    destruct (String.eqb_spec (name s') (name s)) as [Heq|]; [|done].
    apply list_elem_of_In in Hs'.
    pose proof (column_unique _ s Hnd Hin) as Hs.
    assert (Hin' : In s' (List.filter
                     (fun s0 => String.eqb (name s0) (name s)) (series df))).
    { apply filter_In. split; [by apply list_elem_of_In|].
      by apply String.eqb_eq. }
    rewrite Hs in Hin'. destruct Hin' as [->|[]]. by rewrite Hobj.
  - unfold ret.
    assert (Hsame : map (convert_named (name s)) (series df) = series df).
    { rewrite <- (map_id (series df)) at 2.
      apply map_ext_in. intros s' Hs'. unfold convert_named, to_category.
      destruct (String.eqb_spec (name s') (name s)) as [Heq|]; [|done].
      apply list_elem_of_In in Hs'.
      pose proof (column_unique _ s Hnd Hin) as Hs.
      assert (Hin' : In s' (List.filter
                       (fun s0 => String.eqb (name s0) (name s))
                       (series df))).
      { apply filter_In. split; [by apply list_elem_of_In|].
        by apply String.eqb_eq. }
      rewrite Hs in Hin'. destruct Hin' as [->|[]]. by rewrite Hobj. }
    rewrite Hsame. destruct df as [idx l]. cbn [index series].
    f_equal. symmetry. by apply list_insert_id.
Qed.

Lemma convert_cols_spec cols l :
  convert_cols cols l
  = map (fun s => if bool_decide (name s ∈ cols) then to_category s else s) l.
Proof.
  unfold convert_cols. revert l.
  induction cols as [|col cols IH]; intros l; simpl.
  - by rewrite map_id.
  - rewrite IH, map_map. apply map_ext. intros s. unfold convert_named.
    destruct (String.eqb_spec (name s) col) as [Heq|Hne].
    + rewrite to_category_name, to_category_again.
      rewrite (bool_decide_eq_true_2 (name s ∈ col :: cols))
        by (rewrite Heq; apply list_elem_of_here).
      by case_bool_decide.
    + destruct (decide (name s ∈ cols)) as [Hin|Hnotin].
      * rewrite !bool_decide_eq_true_2; [done| |done].
        by apply list_elem_of_further.
      * rewrite !bool_decide_eq_false_2; [done| |done].
        intros Hin. apply elem_of_cons in Hin as [?|?]; done.
Qed.

Lemma convert_all_columns l :
  convert_cols (map name l) l = map to_category l.
Proof.
  rewrite convert_cols_spec. apply map_ext_in. intros s Hs.
  rewrite bool_decide_eq_true_2; [done|].
  apply list_elem_of_In in Hs. by apply (list_elem_of_fmap_2 name).
Qed.

Lemma obj2cat_loop_run converted :
  forall cols (h : theap) df,
    h !! converted = Some df ->
    NoDup (map name (series df)) ->
    Forall (fun col => col ∈ map name (series df)) cols ->
    obj2cat_loop converted cols h
    = (Ok tt,
       <[converted := {| index := index df;
                         series := convert_cols cols (series df) |}]> h).
Proof.
  induction cols as [|col cols IH]; intros h df Hc Hnd Hcols.
  - simpl. unfold ret. f_equal. symmetry. apply list_insert_id.
    by destruct df.
  - apply Forall_cons in Hcols as [Hcol Hcols].
    apply list_elem_of_fmap in Hcol as (s & -> & Hs).
    simpl obj2cat_loop. unfold bind at 1.
    rewrite (obj2cat_step h converted df s Hc Hnd Hs).
    set (df1 := {| index := index df;
                   series := map (convert_named (name s)) (series df) |}).
    assert (Hlt : (converted < length h)%nat)
      by (by apply lookup_lt_Some in Hc).
    rewrite (IH _ df1).
    + f_equal. rewrite list_insert_insert_eq. reflexivity.
    + by apply list_lookup_insert_eq.
    + unfold df1. simpl. by rewrite convert_named_names.
    + unfold df1. simpl. by rewrite convert_named_names.
Qed.

Lemma obj2cat_run (h : theap) dataframe df :
  h !! dataframe = Some df ->
  NoDup (map name (series df)) ->
  obj2cat dataframe h = (Ok (length h), h ++ [to_categories df]).
Proof.
  intros Hd Hnd. unfold obj2cat.
  unfold bind at 1, TypedFrame_copy, bind at 1, tderef at 1, talloc.
  rewrite Hd.
  assert (Hc : (h ++ [df]) !! length h = Some df)
    by (by rewrite lookup_app_r, Nat.sub_diag by lia).
  unfold bind at 1, tderef at 1. rewrite Hc.
  unfold bind at 1.
  rewrite (obj2cat_loop_run _ _ _ df Hc Hnd).
  - unfold ret. f_equal.
    rewrite insert_app_r_alt, Nat.sub_diag by lia. simpl.
    by rewrite convert_all_columns.
  - apply Forall_forall. by intros col Hcol.
Qed.

(** X23: On a frame whose column names are distinct, [obj2cat] returns a new
    frame and leaves its argument (and every other frame) as it was; the
    new frame has the same index and the same columns in the same order;
    its columns that were of dtype [object] are categorical, with the
    values [astype] gives them, and the others keep their dtype and their
    values, so that no [object] column is left. *)
Theorem obj2cat_converts (h : theap) dataframe df :
  h !! dataframe = Some df ->
  NoDup (map name (series df)) ->
  exists converted h' out,
    obj2cat dataframe h = (Ok converted, h')
    /\ h' !! converted = Some out
    /\ h !! converted = None
    /\ (forall l d, h !! l = Some d -> h' !! l = Some d)
    /\ index out = index df
    /\ map name (series out) = map name (series df)
    /\ Forall2 (fun s s' =>
                  if is_object (dt s)
                  then dt s' = Dcategory
                       /\ data s' = categorical_values (data s)
                  else dt s' = dt s /\ data s' = data s)
         (series df) (series out)
    /\ Forall (fun s' => dt s' <> Dobject) (series out).
Proof.
  intros Hd Hnd.
  exists (length h), (h ++ [to_categories df]), (to_categories df).
  split; [by apply obj2cat_run|].
  split; [by rewrite lookup_app_r, Nat.sub_diag by lia|].
  split; [by apply lookup_ge_None_2|].
  split; [intros l d Hl; by apply lookup_app_l_Some|].
  split; [done|]. unfold to_categories. simpl.
  split; [|split].
  - rewrite map_map. apply map_ext. apply to_category_name.
  - clear Hd Hnd. induction (series df) as [|s l IH]; simpl;
      [constructor|]. constructor; [|exact IH].
    unfold to_category. by destruct (is_object (dt s)) eqn:Hobj.
  - apply Forall_forall. intros s' Hs'.
    apply list_elem_of_fmap in Hs' as (s & -> & _).
    destruct s as [n d v]. by destruct d.
Qed.

(** X24: Converting what [obj2cat] returned changes nothing more: the second
    result is a new frame with the contents of the first. *)
Theorem obj2cat_idempotent (h : theap) dataframe df :
  h !! dataframe = Some df ->
  NoDup (map name (series df)) ->
  exists first h1 second h2 out,
    obj2cat dataframe h = (Ok first, h1)
    /\ obj2cat first h1 = (Ok second, h2)
    /\ first <> second
    /\ h2 !! first = Some out
    /\ h2 !! second = Some out.
Proof.
  intros Hd Hnd.
  assert (Hc : (h ++ [to_categories df]) !! length h
               = Some (to_categories df))
    by (by rewrite lookup_app_r, Nat.sub_diag by lia).
  assert (Hnd' : NoDup (map name (series (to_categories df)))).
  { unfold to_categories. simpl. rewrite map_map.
    erewrite map_ext; [exact Hnd|]. apply to_category_name. }
  exists (length h), (h ++ [to_categories df]),
    (length (h ++ [to_categories df])),
    ((h ++ [to_categories df]) ++ [to_categories (to_categories df)]),
    (to_categories df).
  split; [by apply obj2cat_run|].
  split; [by apply obj2cat_run|].
  split; [rewrite length_app; simpl; lia|].
  split; [by apply lookup_app_l_Some|].
  rewrite lookup_app_r, Nat.sub_diag by lia. simpl. f_equal.
  unfold to_categories. simpl. f_equal. rewrite map_map.
  apply map_ext. apply to_category_again.
Qed.

End Astype.

#[local] Existing Instance strings_and_missing.

Lemma obj2cat_converts_witness :
  ([mouse_frame] : theap) !! 0%nat = Some mouse_frame
  /\ NoDup (map name (series mouse_frame))
  /\ exists converted h' out,
      obj2cat 0%nat [mouse_frame] = (Ok converted, h')
      /\ h' !! converted = Some out
      /\ map dt (series out) = [Dfloat64; Dcategory; Dcategory]
      /\ map data (series out) = map data (series mouse_frame)
      /\ h' !! 0%nat = Some mouse_frame.
Proof.
  assert (Hnd : NoDup (map name (series mouse_frame)))
    by (apply (bool_decide_unpack _); vm_compute; exact I).
  split; [reflexivity|]. split; [exact Hnd|].
  destruct (obj2cat_converts [mouse_frame] 0%nat mouse_frame eq_refl Hnd)
    as (converted & h' & out & Hrun & Hout & _ & Hkept & _).
  exists converted, h', out. split; [exact Hrun|]. split; [exact Hout|].
  rewrite (obj2cat_run [mouse_frame] 0%nat mouse_frame eq_refl Hnd) in Hrun.
  injection Hrun as <- <-. injection Hout as <-.
  split; [reflexivity|]. split; reflexivity.
Defined.

Lemma obj2cat_idempotent_witness :
  ([mouse_frame] : theap) !! 0%nat = Some mouse_frame
  /\ NoDup (map name (series mouse_frame))
  /\ exists first h1 second h2 out,
      obj2cat 0%nat [mouse_frame] = (Ok first, h1)
      /\ obj2cat first h1 = (Ok second, h2)
      /\ h2 !! first = Some out
      /\ h2 !! second = Some out.
Proof.
  assert (Hnd : NoDup (map name (series mouse_frame)))
    by (apply (bool_decide_unpack _); vm_compute; exact I).
  split; [reflexivity|]. split; [exact Hnd|].
  destruct (obj2cat_idempotent [mouse_frame] 0%nat mouse_frame eq_refl Hnd)
    as (first & h1 & second & h2 & out & H1 & H2 & _ & Hf & Hs).
  exists first, h1, second, h2, out. by repeat split.
Defined.

End CategoriesSpec.
